(** * Munificent: the site script [assets/js/main.js]

    A shallow embedding of the page script: the data loader [fetchData],
    the four list renderers, the page router [init], the article page
    [renderFullArticle], the mobile menu and the contact modal.

    Conventions of the embedding.
    - A JavaScript string is a [string] holding its UTF-8 bytes.
    - A JavaScript number that the script computes with is an integer or
      NaN ([jsnum]). Integers are exact, which is what the engine computes
      for safe integers (at most 2^53 - 1 in absolute value); beyond them
      the engine rounds to a double. Every theorem that depends on the
      value of a number, and not only on its being zero or NaN, carries
      that bound as a hypothesis ([isSafeInteger]).
    - The document is a finite map from the selector (or [#id]) the script
      uses to the element it finds; the set of elements never changes, only
      their properties do.
    - Code that can throw runs in the monad [JS]: a state transformer on
      [World] whose outcome is a value or a thrown error.
    - The surroundings are explicit: [Browser] is the read-only input of a
      page load (location, network answers), [World] the mutable state
      (document, console, alerts, clock and pending timeouts). *)

From Stdlib Require Import ZArith String Ascii List Lia.
From stdpp Require Import base option list gmap strings fin_maps pretty.

(* ================================================================== *)
(** * 1. JavaScript values and string primitives                       *)
(* ================================================================== *)

(** Literal template text is written with a backquote wherever the script
    has a double quote (a template literal cannot hold a bare backquote,
    so none is lost); [lit] puts the double quotes back. It is applied to
    literal text only, never to interpolated values. *)
Fixpoint lit (s : string) : string :=
  match s with
  | "" => ""
  | String c r =>
      if decide (c = ascii_of_nat 96) then String (ascii_of_nat 34) (lit r)
      else String c (lit r)
  end.

(** [Array.prototype.join] with separator [sep]; [join ""] is the
    [.join('')] that every renderer ends with. *)
Fixpoint join (sep : string) (l : list string) : string :=
  match l with
  | [] => ""
  | [s] => s
  | s :: r => s +:+ sep +:+ join sep r
  end.

(** [s.startsWith(p)]. *)
Fixpoint startsWith (s p : string) {struct p} : bool :=
  match p, s with
  | "", _ => true
  | String _ _, "" => false
  | String c p', String d s' => if decide (c = d) then startsWith s' p' else false
  end.

(** [s.includes(p)]: [p] occurs somewhere in [s]. *)
Fixpoint includes (s p : string) : bool :=
  startsWith s p ||
  match s with
  | "" => false
  | String _ s' => includes s' p
  end.

(** Numbers as the script meets them: the result of [parseInt]. *)
Inductive jsnum : Type :=
  | NaN
  | Num (z : Z).

(** [!n] for a number: NaN and (plus or minus) zero are falsy. *)
Definition falsy (n : jsnum) : bool :=
  match n with
  | NaN => true
  | Num z => (z =? 0)%Z
  end.

(** A JSON value in the [id] field of a post. JSON gives no type to the
    field; a number that is not an integer behaves, for the script's
    comparison with a [parseInt] result, like any other non-matching
    value and is covered by [VOther]. *)
Inductive JsVal : Type :=
  | VNum (z : Z)
  | VStr (s : string)
  | VOther.

(** [v === n] for a number [n]: no coercion, and NaN equals nothing.
    Two numbers are compared as integers, which is the engine's
    comparison when both are safe integers. *)
Definition strictEq (v : JsVal) (n : jsnum) : bool :=
  match v, n with
  | VNum z, Num z' => (z =? z')%Z
  | _, _ => false
  end.

Definition code (c : ascii) : N := N_of_ascii c.

(** White space and line terminators of one byte. *)
Definition isWhiteSpace1 (c : ascii) : bool :=
  let n := code c in
  ((9 <=? n) && (n <=? 13) || (n =? 32))%N.

(** U+00A0, in UTF-8. *)
Definition isWhiteSpace2 (c1 c2 : ascii) : bool :=
  ((code c1 =? 194) && (code c2 =? 160))%N.

(** U+1680, U+2000..U+200A, U+2028, U+2029, U+202F, U+205F, U+3000 and
    U+FEFF, in UTF-8. *)
Definition isWhiteSpace3 (c1 c2 c3 : ascii) : bool :=
  let a := code c1 in
  let b := code c2 in
  let c := code c3 in
  ((a =? 225) && (b =? 154) && (c =? 128)
   || (a =? 226) && (b =? 128) && ((128 <=? c) && (c <=? 138))
   || (a =? 226) && (b =? 128) && ((c =? 168) || (c =? 169) || (c =? 175))
   || (a =? 226) && (b =? 129) && (c =? 159)
   || (a =? 227) && (b =? 128) && (c =? 128)
   || (a =? 239) && (b =? 187) && (c =? 191))%N.

(** [TrimString(s, start)]: drop leading white space. *)
Fixpoint trimStart (s : string) : string :=
  match s with
  | "" => ""
  | String c1 r1 =>
      if isWhiteSpace1 c1 then trimStart r1
      else
        match r1 with
        | "" => s
        | String c2 r2 =>
            if isWhiteSpace2 c1 c2 then trimStart r2
            else
              match r2 with
              | "" => s
              | String c3 r3 =>
                  if isWhiteSpace3 c1 c2 c3 then trimStart r3 else s
              end
        end
  end.

(** The value of a digit in radix [R], if [c] is one. *)
Definition digitValue (R : Z) (c : ascii) : option Z :=
  let n := Z.of_N (code c) in
  let v :=
    if ((48 <=? n) && (n <=? 57))%Z then Some (n - 48)%Z
    else if ((97 <=? n) && (n <=? 122))%Z then Some (n - 87)%Z
    else if ((65 <=? n) && (n <=? 90))%Z then Some (n - 55)%Z
    else None in
  match v with
  | Some d => if (d <? R)%Z then Some d else None
  | None => None
  end.

(** The longest prefix of radix-[R] digits of [s], read as a number;
    [acc] is [None] until a digit has been read. *)
Fixpoint parseDigits (R : Z) (s : string) (acc : option Z) : option Z :=
  match s with
  | "" => acc
  | String c r =>
      match digitValue R c with
      | Some d => parseDigits R r (Some (default 0%Z acc * R + d)%Z)
      | None => acc
      end
  end.

(** [parseInt(x)] with no radix argument. [None] is [null], whose string
    form is ["null"]. The result is the integer that the digits denote:
    the engine's result whenever that integer is a safe integer, and in
    every case NaN or zero exactly when the engine's result is. *)
Definition parseInt (x : option string) : jsnum :=
  let inputString := default "null" x in
  let S0 := trimStart inputString in
  let '(sign, S1) :=
    match S0 with
    | String "-" r => ((-1)%Z, r)
    | String "+" r => (1%Z, r)
    | _ => (1%Z, S0)
    end in
  let '(R, S2) :=
    match S1 with
    | String "0" (String "x" r) => (16%Z, r)
    | String "0" (String "X" r) => (16%Z, r)
    | _ => (10%Z, S1)
    end in
  match parseDigits R S2 None with
  | None => NaN
  | Some v => Num (sign * v)
  end.

(** [new URLSearchParams(search)] as the list of its (name, value) pairs,
    in order; [.get(name)] answers the first value of a name, or [null]. *)
Definition URLSearchParams : Type := list (string * string).

Fixpoint searchParams_get (params : URLSearchParams) (name : string)
    : option string :=
  match params with
  | [] => None
  | (k, v) :: r => if decide (k = name) then Some v else searchParams_get r name
  end.

(** ** [DOMTokenList]: an element's class list *)

Definition classList_contains (l : list string) (c : string) : bool :=
  bool_decide (c ∈ l).

(** [add] appends a token that is not there yet. *)
Definition classList_add (l : list string) (c : string) : list string :=
  if classList_contains l c then l else l ++ [c].

Definition classList_remove (l : list string) (c : string) : list string :=
  List.filter (fun x => negb (bool_decide (x = c))) l.

Definition classList_toggle (l : list string) (c : string) : list string :=
  if classList_contains l c then classList_remove l c else classList_add l c.

(** [a.slice(0, n)] and, in general, [a.slice(i, j)] for indices within
    the non-negative range. *)
Definition slice {A : Type} (i j : nat) (a : list A) : list A :=
  firstn (j - i) (skipn i a).

(* ================================================================== *)
(** * 2. The data model: records loaded from the JSON files            *)
(* ================================================================== *)

Record TeamMember : Type := mkTeamMember {
  member_photo : string;
  member_name : string;
  member_role : string;
  member_bio : string;
  member_subjects : list string
}.

Record Product : Type := mkProduct {
  product_title : string;
  product_price : string;
  product_features : list string;
  product_isPopular : bool
}.

(** [post_content] and [post_image] are optional: [None] is a missing
    field ([undefined]). *)
Record BlogPost : Type := mkBlogPost {
  post_id : JsVal;
  post_date : string;
  post_tags : list string;
  post_title : string;
  post_excerpt : string;
  post_link : string;
  post_content : option string;
  post_image : option string
}.

(* ================================================================== *)
(** * 3. The browser: document, console, timers, network               *)
(* ================================================================== *)

(** What an element holds is what was last written to it: markup (the
    page's own, or an [innerHTML] write) or plain text (a [textContent]
    write). *)
Inductive Content : Type :=
  | Html (markup : string)
  | Text (text : string).

Record Element : Type := mkElement {
  content : Content;
  display : string;            (* style.display *)
  classList : list string;
  disabled : bool;
  value : string;
  defaultValue : string
}.

Definition set_content (c : Content) (e : Element) : Element :=
  mkElement c (display e) (classList e) (disabled e) (value e) (defaultValue e).
Definition set_display (d : string) (e : Element) : Element :=
  mkElement (content e) d (classList e) (disabled e) (value e) (defaultValue e).
Definition set_classList (f : list string → list string) (e : Element) : Element :=
  mkElement (content e) (display e) (f (classList e)) (disabled e) (value e)
    (defaultValue e).
Definition set_disabled (b : bool) (e : Element) : Element :=
  mkElement (content e) (display e) (classList e) b (value e) (defaultValue e).
Definition set_value (v : string) (e : Element) : Element :=
  mkElement (content e) (display e) (classList e) (disabled e) v (defaultValue e).
Definition set_defaultValue (v : string) (e : Element) : Element :=
  mkElement (content e) (display e) (classList e) (disabled e) (value e) v.

(** How an [input] keeps its value. In value mode (text, number and the
    like) the value is the control's own state: [el.value = v] changes it
    and the default value, which is the [value] attribute, stays. In
    default mode (hidden, and with it the button types) the value is the
    [value] attribute itself: [el.value = v] rewrites the attribute, and
    so the default value too. *)
Inductive InputMode : Type :=
  | ValueMode
  | DefaultMode.

(** [el.value = v] on an input of the given mode. *)
Definition assign_value (mode : InputMode) (v : string) (e : Element) : Element :=
  match mode with
  | ValueMode => set_value v e
  | DefaultMode => set_defaultValue v (set_value v e)
  end.

Inductive JsError : Type :=
  | TypeError (msg : string)
  | SyntaxError (msg : string)
  | Error (msg : string).

Inductive LogEntry : Type :=
  | ConsoleLog (msg : string) (arg : option JsError)
  | ConsoleError (msg : string) (arg : JsError).

(** The two callbacks the script hands to [setTimeout]. *)
Inductive TimerTask : Type :=
  | AddOpenClass      (* modal.classList.add('modal--open') *)
  | HideModal.        (* modal.style.display = 'none' *)

(** The mutable state. [timers] holds the pending timeouts with the time
    (in ms) each is due, in the order they were set. *)
Record World : Type := mkWorld {
  doc : gmap string Element;
  documentTitle : string;
  console : list LogEntry;
  alerts : list string;
  now : nat;
  timers : list (nat * TimerTask);
  sendFormCalls : nat
}.

Definition with_doc (f : gmap string Element → gmap string Element) (w : World)
    : World :=
  mkWorld (f (doc w)) (documentTitle w) (console w) (alerts w) (now w)
    (timers w) (sendFormCalls w).
Definition with_title (t : string) (w : World) : World :=
  mkWorld (doc w) t (console w) (alerts w) (now w) (timers w) (sendFormCalls w).
Definition with_console (f : list LogEntry → list LogEntry) (w : World) : World :=
  mkWorld (doc w) (documentTitle w) (f (console w)) (alerts w) (now w)
    (timers w) (sendFormCalls w).
Definition with_alerts (f : list string → list string) (w : World) : World :=
  mkWorld (doc w) (documentTitle w) (console w) (f (alerts w)) (now w)
    (timers w) (sendFormCalls w).
Definition with_clock (t : nat) (l : list (nat * TimerTask)) (w : World) : World :=
  mkWorld (doc w) (documentTitle w) (console w) (alerts w) t l (sendFormCalls w).
Definition with_sendForm (w : World) : World :=
  mkWorld (doc w) (documentTitle w) (console w) (alerts w) (now w) (timers w)
    (S (sendFormCalls w)).

(** What [response.json()] settles to. *)
Inductive Parsed (A : Type) : Type :=
  | Unparsable (reason : JsError)  (* not JSON: the promise rejects *)
  | JsonNull                       (* the body is the JSON value null *)
  | JsonArray (a : A).             (* the body is an array of records *)
Arguments Unparsable {A} reason.
Arguments JsonNull {A}.
Arguments JsonArray {A} a.

Record Response (A : Type) : Type := mkResponse {
  status : nat;
  json : Parsed A
}.
Arguments mkResponse {A} status json.
Arguments status {A} r.
Arguments json {A} r.

(** [response.ok]: the status is in the range 200 to 299. *)
Definition ok {A : Type} (r : Response A) : bool :=
  (200 <=? status r) && (status r <=? 299).

(** What [fetch(url)] settles to. *)
Inductive FetchOutcome (A : Type) : Type :=
  | NetworkFailure (reason : JsError)   (* the promise rejects *)
  | Responded (r : Response A).
Arguments NetworkFailure {A} reason.
Arguments Responded {A} r.

(** The order in which three promises started together settle: [Order213]
    is the second first, then the first, then the third. *)
Inductive SettleOrder : Type :=
  | Order123
  | Order132
  | Order213
  | Order231
  | Order312
  | Order321.

(** The read-only surroundings of one page load: the location, what the
    network answers for each of the three JSON files, [textOf], the text
    that the browser reports for an element holding markup, the order in
    which the three parallel loads of the landing page settle, and the
    mode of the [contact_number] input of the page's form (the page's
    markup decides it; the script only looks the input up by name). *)
Record Browser : Type := mkBrowser {
  pathname : string;
  search : URLSearchParams;
  href : string;
  textOf : string → string;
  fetch_team : FetchOutcome (list TeamMember);
  fetch_products : FetchOutcome (list Product);
  fetch_blog : FetchOutcome (list BlogPost);
  settle_order : SettleOrder;
  contact_number_mode : InputMode
}.

(** ** The monad of code that may throw *)

Inductive Outcome (A : Type) : Type :=
  | Return (a : A)
  | Throw (e : JsError).
Arguments Return {A} a.
Arguments Throw {A} e.

Definition JS (A : Type) : Type := World → Outcome A * World.

Definition ret {A : Type} (a : A) : JS A := fun w => (Return a, w).
Definition throw {A : Type} (e : JsError) : JS A := fun w => (Throw e, w).
Definition bind {A B : Type} (m : JS A) (k : A → JS B) : JS B :=
  fun w =>
    match m w with
    | (Return a, w') => k a w'
    | (Throw e, w') => (Throw e, w')
    end.
(** [try { m } catch (e) { h e }]. *)
Definition try_catch {A : Type} (m : JS A) (h : JsError → JS A) : JS A :=
  fun w =>
    match m w with
    | (Return a, w') => (Return a, w')
    | (Throw e, w') => h e w'
    end.
(** A statement that cannot throw. *)
Definition act (f : World → World) : JS unit := fun w => (Return tt, f w).
(** The state a computation leaves, whether it returned or threw. *)
Definition exec {A : Type} (m : JS A) (w : World) : World := (m w).2.

Declare Scope js_scope.
Delimit Scope js_scope with js.
Notation "'let!' x ':=' m 'in' k" := (bind m (fun x => k))
  (at level 10, x name, m at level 100, k at level 200) : js_scope.
Notation "m ';;;' k" := (bind m (fun _ => k))
  (at level 100, k at level 200, right associativity) : js_scope.

(** ** Document and console primitives *)

Definition querySelector (sel : string) (w : World) : option Element :=
  doc w !! sel.
Definition getElementById (id : string) (w : World) : option Element :=
  querySelector ("#" +:+ id) w.

(** A property write through a reference the script already holds. *)
Definition update (sel : string) (f : Element → Element) (w : World) : World :=
  with_doc (alter f sel) w.

(** [ref.prop = v] where [ref] may be null: a TypeError when it is. *)
Definition assign (sel : string) (f : Element → Element) : JS unit :=
  fun w =>
    match querySelector sel w with
    | Some _ => (Return tt, update sel f w)
    | None => (Throw (TypeError "Cannot set properties of null"), w)
    end.

Definition innerHTML (h : string) : Element → Element := set_content (Html h).
Definition textContent_set (t : string) : Element → Element := set_content (Text t).

(** Reading [el.textContent]. *)
Definition textContent (b : Browser) (e : Element) : string :=
  match content e with
  | Text t => t
  | Html m => textOf b m
  end.

Definition console_log (msg : string) (arg : option JsError) (w : World) : World :=
  with_console (fun l => l ++ [ConsoleLog msg arg]) w.
Definition console_error (msg : string) (arg : JsError) (w : World) : World :=
  with_console (fun l => l ++ [ConsoleError msg arg]) w.
Definition alert (msg : string) (w : World) : World :=
  with_alerts (fun l => l ++ [msg]) w.
Definition setTimeout (task : TimerTask) (delay : nat) (w : World) : World :=
  with_clock (now w) (timers w ++ [(now w + delay, task)]) w.

(* ================================================================== *)
(** * 4. Configuration and markup templates                            *)
(* ================================================================== *)

Definition CONFIG_paths_team : string := "data/team.json".
Definition CONFIG_paths_products : string := "data/products.json".
Definition CONFIG_paths_blog : string := "data/blog.json".
Definition CONFIG_selectors_team : string := "#team-container".
Definition CONFIG_selectors_services : string := "#services-container".
Definition CONFIG_selectors_blog : string := "#blog-preview".
Definition CONFIG_selectors_fullBlog : string := "#full-blog-list".

(** The markup of one subject of a team member. *)
Definition subjectTag (subject : string) : string :=
  lit "<span class=`tag`>"
  +:+ subject
  +:+ lit "</span>".

(** The card of one team member ([renderTeam]). *)
Definition teamCard (member : TeamMember) : string :=
  lit "
        <div class=`card team-card`>
            <div class=`team-card__image-wrapper`>
                <img src=`"
  +:+ member_photo member
  +:+ lit "` alt=`"
  +:+ member_name member
  +:+ lit "` class=`team-card__image` loading=`lazy`>
            </div>
            <div class=`team-card__content`>
                <h3 class=`team-card__name`>"
  +:+ member_name member
  +:+ lit "</h3>
                <span class=`badge team-card__role`>"
  +:+ member_role member
  +:+ lit "</span>
                <p class=`team-card__bio`>"
  +:+ member_bio member
  +:+ lit "</p>
                <div class=`team-card__subjects`>
                    "
  +:+ join "" (map subjectTag (member_subjects member))
  +:+ lit "
                </div>
            </div>
        </div>
    ".

(** The markup of one feature of a product. *)
Definition featureItem (feature : string) : string :=
  lit "<li class=`service-card__feature-item`>"
  +:+ feature
  +:+ lit "</li>".

(** The card of one product ([renderServices]). *)
Definition serviceCard (product : Product) : string :=
  lit "
        <div class=`card service-card "
  +:+ (if product_isPopular product then "card--popular" else "")
  +:+ lit "`>
            "
  +:+ (if product_isPopular product then lit "<span class=`badge badge--popular`>Popular</span>" else "")
  +:+ lit "
            <h3 class=`service-card__title`>"
  +:+ product_title product
  +:+ lit "</h3>
            <div class=`service-card__price`>"
  +:+ product_price product
  +:+ lit "</div>
            <ul class=`service-card__features`>
                "
  +:+ join "" (map featureItem (product_features product))
  +:+ lit "
            </ul>
            <a href=`https://wa.me/77085365323?text=Здравствуйте!%20Хочу%20записаться%20на%20курс:%20"
  +:+ product_title product
  +:+ lit "` target=`_blank` class=`btn btn--primary service-card__action`>Записаться в WhatsApp</a>
        </div>
    ".

(** The markup of one tag of a post, in both blog renderers. *)
Definition tagSpan (tag : string) : string :=
  lit "<span class=`tag tag--small`>"
  +:+ tag
  +:+ lit "</span>".

(** The tags that the landing-page card shows:
    [post.tags.slice(0, 2).map(...).join('')]. *)
Definition previewTags (post : BlogPost) : string :=
  join "" (map tagSpan (slice 0 2 (post_tags post))).

(** The tags that the archive card shows: [post.tags.map(...).join('')]. *)
Definition archiveTags (post : BlogPost) : string :=
  join "" (map tagSpan (post_tags post)).

(** The card of one post on the landing page ([renderBlog]). *)
Definition blogCard (post : BlogPost) : string :=
  lit "
        <div class=`card blog-card`>
            <div class=`blog-card__header`>
                <time class=`blog-card__date` datetime=`"
  +:+ post_date post
  +:+ lit "`>"
  +:+ post_date post
  +:+ lit "</time>
                <div class=`blog-card__tags`>
                    "
  +:+ previewTags post
  +:+ lit "
                </div>
            </div>
            <h3 class=`blog-card__title`>"
  +:+ post_title post
  +:+ lit "</h3>
            <p class=`blog-card__excerpt`>"
  +:+ post_excerpt post
  +:+ lit "</p>
            <a href=`"
  +:+ post_link post
  +:+ lit "` class=`link link--arrow`>Читать далее &rarr;</a>
        </div>
    ".

(** The card of one post in the archive ([renderAllArticles]). *)
Definition archiveCard (post : BlogPost) : string :=
  lit "
        <div class=`card blog-card` style=`display: flex; flex-direction: column; height: 100%;`>
            <div class=`blog-card__header`>
                <time class=`blog-card__date` datetime=`"
  +:+ post_date post
  +:+ lit "`>"
  +:+ post_date post
  +:+ lit "</time>
                <div class=`blog-card__tags`>
                    "
  +:+ archiveTags post
  +:+ lit "
                </div>
            </div>
            <h3 class=`blog-card__title` style=`margin-top: auto; margin-bottom: 0.5rem;`>"
  +:+ post_title post
  +:+ lit "</h3>
            <p class=`blog-card__excerpt` style=`flex-grow: 1;`>"
  +:+ post_excerpt post
  +:+ lit "</p>
            <a href=`"
  +:+ post_link post
  +:+ lit "` class=`link link--arrow` style=`margin-top: 1rem;`>Читать далее &rarr;</a>
        </div>
    ".

(** The hero image of an article. *)
Definition heroImage (image : string) (post : BlogPost) : string :=
  lit "<img src=`"
  +:+ image
  +:+ lit "` alt=`"
  +:+ post_title post
  +:+ lit "` style=`width:100%; border-radius:8px; margin-bottom:1rem;`>".

(** The date and tags line of an article. *)
Definition articleMeta (post : BlogPost) : string :=
  lit "
                    <span>"
  +:+ post_date post
  +:+ lit "</span> | 
                    <span style=`color: var(--accent);`>"
  +:+ join ", " (post_tags post)
  +:+ lit "</span>
                ".

(** The share links under an article. *)
Definition shareBlock (b : Browser) : string :=
  lit "
                    <div class=`share-block` style=`margin-top: 2rem; padding-top: 1rem; border-top: 1px solid rgba(100, 255, 218, 0.1);`>
                        <h4 style=`margin-bottom: 1rem;`>Понравилась статья? Поделись с друзьями:</h4>
                        <a href=`https://wa.me/?text=Смотри крутую статью: "
  +:+ href b
  +:+ lit "` target=`_blank` class=`btn-share`>WhatsApp</a>
                        <a href=`https://t.me/share/url?url="
  +:+ href b
  +:+ lit "` target=`_blank` class=`btn-share`>Telegram</a>
                    </div>
                ".

(* ================================================================== *)
(** * 5. The data loader                                               *)
(* ================================================================== *)

Open Scope js_scope.

(** [await fetch(url)]: a network failure rejects. *)
Definition await_fetch {A : Type} (answer : FetchOutcome A) : JS (Response A) :=
  match answer with
  | NetworkFailure reason => throw reason
  | Responded r => ret r
  end.

(** [await response.json()]: a body that is not JSON rejects; [null]
    parses to [null]. *)
Definition await_json {A : Type} (r : Response A) : JS (option A) :=
  match json r with
  | Unparsable reason => throw reason
  | JsonNull => ret None
  | JsonArray a => ret (Some a)
  end.

(** [fetchData(url)]; [answer] is what the network answers for [url].
    The result [None] is the script's [null]. *)
Definition fetchData {A : Type} (url : string) (answer : FetchOutcome A)
    : JS (option A) :=
  try_catch
    (let! response := await_fetch answer in
     if negb (ok response)
     then throw (Error ("HTTP error! Status: " +:+ pretty (status response)))
     else await_json response)
    (fun error =>
       act (console_error ("Error fetching data from " +:+ url +:+ ":") error) ;;;
       ret None).

(* ================================================================== *)
(** * 6. The renderers                                                 *)
(* ================================================================== *)

(** The four list renderers share one shape: look the container up,
    return when it or the data is missing, else write the joined cards.
    [data = None] is a [null] argument. *)
Definition renderTeam (data : option (list TeamMember)) (w : World) : World :=
  let container := querySelector CONFIG_selectors_team w in
  match container, data with
  | Some _, Some data =>
      let html := join "" (map teamCard data) in
      update CONFIG_selectors_team (innerHTML html) w
  | _, _ => w
  end.

Definition renderServices (data : option (list Product)) (w : World) : World :=
  let container := querySelector CONFIG_selectors_services w in
  match container, data with
  | Some _, Some data =>
      let html := join "" (map serviceCard data) in
      update CONFIG_selectors_services (innerHTML html) w
  | _, _ => w
  end.

Definition renderBlog (data : option (list BlogPost)) (w : World) : World :=
  let container := querySelector CONFIG_selectors_blog w in
  match container, data with
  | Some _, Some data =>
      let html := join "" (map blogCard data) in
      update CONFIG_selectors_blog (innerHTML html) w
  | _, _ => w
  end.

Definition renderAllArticles (data : option (list BlogPost)) (w : World) : World :=
  let container := querySelector CONFIG_selectors_fullBlog w in
  match container, data with
  | Some _, Some data =>
      let html := join "" (map archiveCard data) in
      update CONFIG_selectors_fullBlog (innerHTML html) w
  | _, _ => w
  end.

(* ================================================================== *)
(** * 7. The article page and the router                               *)
(* ================================================================== *)

Definition notFoundTitle : string := "Статья не найдена".
Definition notFoundContent : string :=
  "<p>Запрашиваемый материал отсутствует в нашей базе.</p>".

(** A string field in a condition: missing and empty are falsy. *)
Definition truthy (o : option string) : bool :=
  match o with
  | Some s => negb (String.eqb s "")
  | None => false
  end.

(** The branch of [renderFullArticle] that shows the post it found. *)
Definition showPost (b : Browser) (post : BlogPost) : JS unit :=
  act (with_title (post_title post +:+ " | Munificent")) ;;;
  assign "#article-title" (textContent_set (post_title post)) ;;;
  act (fun w =>
         let heroImageDiv := getElementById "article-hero-image" w in
         match heroImageDiv with
         | Some _ =>
             if truthy (post_image post)
             then update "#article-hero-image"
                    (innerHTML (heroImage (default "" (post_image post)) post)) w
             else update "#article-hero-image" (set_display "none") w
         | None => w
         end) ;;;
  assign "#article-meta" (innerHTML (articleMeta post)) ;;;
  assign "#article-content"
    (innerHTML (default "undefined" (post_content post) +:+ shareBlock b)).

(** The branch that reports an id no post has. *)
Definition showNotFound : JS unit :=
  assign "#article-title" (textContent_set notFoundTitle) ;;;
  assign "#article-content" (innerHTML notFoundContent).

(** The callback [data => { ... }] of the promise chain. [data = None] is
    a JSON [null], on which [.find] throws. *)
Definition articleCallback (b : Browser) (id : jsnum)
    (data : option (list BlogPost)) : JS unit :=
  match data with
  | None => throw (TypeError "Cannot read properties of null (reading 'find')")
  | Some data =>
      let post := List.find (fun p => strictEq (post_id p) id) data in
      match post with
      | Some post => showPost b post
      | None => showNotFound
      end
  end.

(** [renderFullArticle()]. The early branch runs in the caller and may
    throw into it; the promise chain ends in [.catch], which logs. The
    chain does not test [response.ok]. *)
Definition renderFullArticle (b : Browser) : JS unit :=
  let urlParams := search b in
  let id := parseInt (searchParams_get urlParams "id") in
  if falsy id
  then assign "#article-title" (textContent_set notFoundTitle)
  else
    try_catch
      (let! response := await_fetch (fetch_blog b) in
       let! data := await_json response in
       articleCallback b id data)
      (fun err => act (console_error "Failed to load article:" err)).

(** [await Promise.all([p1, p2, p3])] for three promises that do not
    reject (as those of [fetchData] never do): their effects happen in the
    order in which they settle, and the results come in argument order. *)
Definition Promise_all3 {A B C : Type} (order : SettleOrder)
    (p1 : JS A) (p2 : JS B) (p3 : JS C) : JS (A * B * C) :=
  match order with
  | Order123 => let! a := p1 in let! b := p2 in let! c := p3 in ret (a, b, c)
  | Order132 => let! a := p1 in let! c := p3 in let! b := p2 in ret (a, b, c)
  | Order213 => let! b := p2 in let! a := p1 in let! c := p3 in ret (a, b, c)
  | Order231 => let! b := p2 in let! c := p3 in let! a := p1 in ret (a, b, c)
  | Order312 => let! c := p3 in let! a := p1 in let! b := p2 in ret (a, b, c)
  | Order321 => let! c := p3 in let! b := p2 in let! a := p1 in ret (a, b, c)
  end.

(** [init()]. The three landing-page fetches run in parallel: their log
    lines come in the order in which the loads settle, which the browser
    decides ([settle_order]). *)
Definition init (b : Browser) : JS unit :=
  act (console_log "System initialized. Welcome to Munificent." None) ;;;
  if includes (pathname b) "article.html" then renderFullArticle b
  else if includes (pathname b) "blog.html" then
    let! blogData := fetchData CONFIG_paths_blog (fetch_blog b) in
    act (renderAllArticles blogData)
  else
    let! teamContainer :=
      (fun w => (Return (querySelector CONFIG_selectors_team w), w)) in
    match teamContainer with
    | Some _ =>
        let! data :=
          Promise_all3 (settle_order b)
            (fetchData CONFIG_paths_team (fetch_team b))
            (fetchData CONFIG_paths_products (fetch_products b))
            (fetchData CONFIG_paths_blog (fetch_blog b)) in
        let '(teamData, productsData, blogData) := data in
        act (renderTeam teamData) ;;;
        act (renderServices productsData) ;;;
        act (renderBlog blogData)
    | None => ret tt
    end.

(* ================================================================== *)
(** * 8. The mobile menu and the contact modal                         *)
(* ================================================================== *)

Definition present (sel : string) (w : World) : bool :=
  bool_decide (is_Some (querySelector sel w)).

(** [setupMobileMenu] attaches its listeners only when both elements are
    there. *)
Definition setupMobileMenu_wired (w : World) : bool :=
  present ".menu-toggle" w && present ".nav-links" w.

(** The click listener of the menu toggle. *)
Definition menuToggle_click (w : World) : World :=
  update ".menu-toggle" (set_classList (fun l => classList_toggle l "open"))
    (update ".nav-links" (set_classList (fun l => classList_toggle l "active")) w).

(** The click listener of each navigation link. *)
Definition navLink_click (w : World) : World :=
  update ".menu-toggle" (set_classList (fun l => classList_remove l "open"))
    (update ".nav-links" (set_classList (fun l => classList_remove l "active")) w).

(** [setupModal] returns early unless the modal and both buttons exist. *)
Definition setupModal_wired (w : World) : bool :=
  present "#modal" w && present "#openModalBtn" w && present ".close-btn" w.

(** The form listener is attached after that, when the form exists. *)
Definition setupModal_form_wired (w : World) : bool :=
  setupModal_wired w && present "#contact-form" w.

(** The click listener of the open button. *)
Definition openBtn_click (w : World) : World :=
  setTimeout AddOpenClass 10 (update "#modal" (set_display "block") w).

(** [closeModal()]. *)
Definition closeModal (w : World) : World :=
  setTimeout HideModal 300
    (update "#modal" (set_classList (fun l => classList_remove l "modal--open")) w).

Definition runTask (t : TimerTask) (w : World) : World :=
  match t with
  | AddOpenClass =>
      update "#modal" (set_classList (fun l => classList_add l "modal--open")) w
  | HideModal => update "#modal" (set_display "none") w
  end.

(** One millisecond passes: the timeouts that are due run, in the order
    they were set. *)
Definition tick (w : World) : World :=
  let t := S (now w) in
  let due := List.filter (fun p => p.1 <=? t) (timers w) in
  let rest := List.filter (fun p => negb (p.1 <=? t)) (timers w) in
  fold_left (fun w p => runTask p.2 w) due (with_clock t rest w).

Definition advance (n : nat) (w : World) : World := Nat.iter n tick w.

(** The two elements the submit listener looks up inside the form. *)
Definition contactNumberInput : string := lit "input[name=`contact_number`]".
Definition submitBtn : string := lit "button[type=`submit`]".

(** [form.reset()]: the one control of the form that the script writes
    goes back to its default. *)
Definition form_reset (w : World) : World :=
  update contactNumberInput (fun e => set_value (defaultValue e) e) w.

(** The submit listener up to and including the call of the widget;
    [rnd] is [Math.random() * 100000 | 0], an integer from 0 to 99999. It
    returns [originalText], which the callbacks of the widget's promise
    close over. *)
Definition form_submit (b : Browser) (rnd : Z) : JS string :=
  act (fun w =>
         match querySelector contactNumberInput w with
         | Some _ =>
             update contactNumberInput
               (assign_value (contact_number_mode b) (pretty rnd)) w
         | None => w
         end) ;;;
  let! button := (fun w => (Return (querySelector submitBtn w), w)) in
  match button with
  | None =>
      throw (TypeError "Cannot read properties of null (reading 'textContent')")
  | Some e =>
      let originalText := textContent b e in
      act (update submitBtn (textContent_set "Отправка...")) ;;;
      act (update submitBtn (set_disabled true)) ;;;
      act with_sendForm ;;;
      ret originalText
  end.

(** How the widget's promise settles. *)
Inductive Settlement : Type :=
  | Resolved
  | Rejected (error : JsError).

(** The [.then(onResolved, onRejected).finally(...)] callbacks. *)
Definition sendForm_settled (s : Settlement) (originalText : string) (w : World)
    : World :=
  let w1 :=
    match s with
    | Resolved =>
        form_reset
          (closeModal
             (alert "Сообщение отправлено! Мы скоро свяжемся с вами."
                (console_log "SUCCESS!" None w)))
    | Rejected error =>
        alert "Ошибка отправки. Пожалуйста, попробуйте позже."
          (console_log "FAILED..." (Some error) w)
    end in
  update submitBtn (set_disabled false)
    (update submitBtn (textContent_set originalText) w1).

(** What can happen to the page once it is set up. *)
Inductive Event : Type :=
  | ClickOpenBtn
  | ClickCloseBtn
  | ClickWindow (targetIsModal : bool)
  | ClickMenuToggle
  | ClickNavLink
  | SubmitForm (rnd : Z)
  | SendFormSettled (s : Settlement) (originalText : string)
  | Tick.

(** The listeners that [setupModal] and [setupMobileMenu] attached, as a
    step function. *)
Definition dispatch (b : Browser) (ev : Event) (w : World) : World :=
  match ev with
  | ClickOpenBtn => if setupModal_wired w then openBtn_click w else w
  | ClickCloseBtn => if setupModal_wired w then closeModal w else w
  | ClickWindow targetIsModal =>
      if setupModal_wired w && targetIsModal then closeModal w else w
  | ClickMenuToggle => if setupMobileMenu_wired w then menuToggle_click w else w
  | ClickNavLink => if setupMobileMenu_wired w then navLink_click w else w
  | SubmitForm rnd =>
      if setupModal_form_wired w then exec (form_submit b rnd) w else w
  | SendFormSettled s originalText =>
      if setupModal_form_wired w then sendForm_settled s originalText w else w
  | Tick => tick w
  end.

Definition run (b : Browser) (evs : list Event) (w : World) : World :=
  fold_left (fun w ev => dispatch b ev w) evs w.

(* ================================================================== *)
(** * 9. Notions used to state the properties                          *)
(* ================================================================== *)

(** Plain concatenation of a list of fragments. *)
Definition concat_strings (l : list string) : string :=
  fold_right String.append "" l.

(** [html] is one fragment per record of [data], in the order of [data],
    concatenated. *)
Definition one_fragment_per_record {A : Type} (card : A → string)
    (data : list A) (html : string) : Prop :=
  ∃ fragments : list string,
    Forall2 (fun record fragment => fragment = card record) data fragments
    ∧ html = concat_strings fragments.

(** The failures that [fetchData] absorbs. *)
Definition fetch_fails {A : Type} (answer : FetchOutcome A) : bool :=
  match answer with
  | NetworkFailure _ => true
  | Responded r =>
      negb (ok r) || match json r with Unparsable _ => true | _ => false end
  end.

(** A network error or a non-success status, and nothing else. *)
Definition network_or_status_failure {A : Type} (answer : FetchOutcome A) : bool :=
  match answer with
  | NetworkFailure _ => true
  | Responded r => negb (ok r)
  end.

(** The error that [fetchData] logs for a failing answer (the last case
    is no failure and is never logged). *)
Definition fetch_error {A : Type} (answer : FetchOutcome A) : JsError :=
  match answer with
  | NetworkFailure reason => reason
  | Responded r =>
      if negb (ok r) then Error ("HTTP error! Status: " +:+ pretty (status r))
      else match json r with
           | Unparsable reason => reason
           | _ => Error ""
           end
  end.

(** The value that [fetchData] returns for an answer. *)
Definition fetched {A : Type} (answer : FetchOutcome A) : option A :=
  match answer with
  | NetworkFailure _ => None
  | Responded r =>
      if ok r then match json r with JsonArray a => Some a | _ => None end
      else None
  end.

(** The world that [fetchData] leaves: one more console entry when the
    answer is a failure. *)
Definition fetch_log {A : Type} (url : string) (answer : FetchOutcome A)
    (w : World) : World :=
  if fetch_fails answer
  then console_error ("Error fetching data from " +:+ url +:+ ":")
         (fetch_error answer) w
  else w.

(** The world that the three parallel loads of the landing page leave:
    the console entries of the failing ones, in the order in which the
    loads settle. *)
Definition fetch_logs (b : Browser) (w : World) : World :=
  let team := fetch_log CONFIG_paths_team (fetch_team b) in
  let products := fetch_log CONFIG_paths_products (fetch_products b) in
  let blog := fetch_log CONFIG_paths_blog (fetch_blog b) in
  match settle_order b with
  | Order123 => blog (products (team w))
  | Order132 => products (blog (team w))
  | Order213 => blog (team (products w))
  | Order231 => team (blog (products w))
  | Order312 => products (team (blog w))
  | Order321 => team (products (blog w))
  end.

(** [Number.isSafeInteger]: the integers that a double holds exactly and
    unambiguously. *)
Definition isSafeInteger (z : Z) : bool := (Z.abs z <=? 2 ^ 53 - 1)%Z.

(** A parsed number whose value the model has exactly. *)
Definition safe_num (n : jsnum) : bool :=
  match n with
  | NaN => true
  | Num z => isSafeInteger z
  end.

(** Blog data whose numeric ids are safe integers. *)
Definition safe_ids (data : list BlogPost) : bool :=
  forallb (fun p => match post_id p with VNum z => isSafeInteger z | _ => true end)
    data.

(** The greeting that [init] logs first. *)
Definition greeted (w : World) : World :=
  console_log "System initialized. Welcome to Munificent." None w.

(** The handler at the end of the promise chain of the article page. *)
Definition article_catch (err : JsError) : JS unit :=
  act (console_error "Failed to load article:" err).

(** The three branches of the router. *)
Inductive Route : Type :=
  | Article
  | Archive
  | Landing.

Definition route (path : string) : Route :=
  if includes path "article.html" then Article
  else if includes path "blog.html" then Archive
  else Landing.

(** A post with another tag list. *)
Definition with_tags (tags : list string) (p : BlogPost) : BlogPost :=
  mkBlogPost (post_id p) (post_date p) tags (post_title p) (post_excerpt p)
    (post_link p) (post_content p) (post_image p).

(** The modal is hidden: not displayed and without the open class. *)
Definition modalHidden (w : World) : Prop :=
  ∃ e, querySelector "#modal" w = Some e
       ∧ display e = "none"
       ∧ classList_contains (classList e) "modal--open" = false.

(** ** A sample page, for the concrete instances below *)

Definition blank : Element := mkElement (Html "") "" [] false "" "".

Definition sample_modal : Element :=
  mkElement (Html "<form id=contact-form></form>") "none" ["modal"] false "" "".

Definition sample_button : Element :=
  mkElement (Html "Send") "" ["btn"] false "" "".

Definition sample_nav : Element :=
  mkElement (Html "") "" ["nav-links"; "active"; "wide"] false "" "".

Definition sample_doc : gmap string Element :=
  list_to_map
    [ ("#team-container", blank); ("#services-container", blank);
      ("#blog-preview", blank); ("#full-blog-list", blank);
      ("#article-title", mkElement (Text "...") "" [] false "" "");
      ("#article-content", mkElement (Html "<p>loading</p>") "" [] false "" "");
      ("#article-meta", blank);
      ("#modal", sample_modal); ("#openModalBtn", blank); (".close-btn", blank);
      ("#contact-form", blank); (submitBtn, sample_button);
      (contactNumberInput, blank);
      (".menu-toggle", blank); (".nav-links", sample_nav) ].

Definition sample_world : World := mkWorld sample_doc "Munificent" [] [] 0 [] 0.

(** A landing page without the team container. *)
Definition sample_world_no_team : World :=
  mkWorld (delete "#team-container" sample_doc) "Munificent" [] [] 0 [] 0.

Definition sample_team : list TeamMember :=
  [ mkTeamMember "a.jpg" "Aida" "Tutor" "Maths" ["algebra"; "geometry"];
    mkTeamMember "b.jpg" "Bolat" "Tutor" "Physics" [] ].

Definition sample_products : list Product :=
  [ mkProduct "Course" "100" ["one"; "two"] true ].

Definition sample_posts : list BlogPost :=
  [ mkBlogPost (VNum 0) "2024-01-01" ["a"] "Zero" "e0" "article.html?id=0"
      (Some "<p>zero</p>") None;
    mkBlogPost (VNum 1) "2024-01-02" ["a"; "b"; "c"] "One" "e1"
      "article.html?id=1" (Some "<p>one</p>") (Some "one.png");
    mkBlogPost (VStr "2") "2024-01-03" [] "Two" "e2" "article.html?id=2"
      None None ].

Definition respond {A : Type} (data : A) : FetchOutcome A :=
  Responded (mkResponse 200 (JsonArray data)).

Definition sample_browser (path : string) (params : URLSearchParams) : Browser :=
  mkBrowser path params "https://example.org/page" (fun s => s)
    (respond sample_team) (respond sample_products) (respond sample_posts)
    Order123 DefaultMode.

(** ** Notions for the further properties *)

(** What a list renderer makes of its container: the joined cards for an
    array, the container as it was for [null]. *)
Definition rendered_element {A : Type} (card : A → string)
    (data : option (list A)) (e : Element) : Element :=
  match data with
  | Some d => set_content (Html (join "" (map card d))) e
  | None => e
  end.

(** A computation writes to no element outside [sels]. *)
Definition touches_only {A : Type} (sels : list string) (m : JS A) : Prop :=
  ∀ w sel, sel ∉ sels → querySelector sel (m w).2 = querySelector sel w.


(** Whether a computation threw. *)
Definition threw {A : Type} (r : Outcome A * World) : bool :=
  match r.1 with
  | Return _ => false
  | Throw _ => true
  end.

(** A browser with another answer for the blog file, or another query. *)
Definition with_blog (answer : FetchOutcome (list BlogPost)) (b : Browser)
    : Browser :=
  mkBrowser (pathname b) (search b) (href b) (textOf b) (fetch_team b)
    (fetch_products b) answer (settle_order b) (contact_number_mode b).

Definition with_search (params : URLSearchParams) (b : Browser) : Browser :=
  mkBrowser (pathname b) params (href b) (textOf b) (fetch_team b)
    (fetch_products b) (fetch_blog b) (settle_order b) (contact_number_mode b).

(** The hero image statement of [showPost], by itself. *)
Definition heroStep (post : BlogPost) (w : World) : World :=
  match getElementById "article-hero-image" w with
  | Some _ =>
      if truthy (post_image post)
      then update "#article-hero-image"
             (innerHTML (heroImage (default "" (post_image post)) post)) w
      else update "#article-hero-image" (set_display "none") w
  | None => w
  end.

(** What the hero image statement makes of the hero element. *)
Definition hero_element (post : BlogPost) (e : Element) : Element :=
  if truthy (post_image post)
  then set_content (Html (heroImage (default "" (post_image post)) post)) e
  else set_display "none" e.

(** The blog file did not load as an array: the fetch failed, the body is
    not JSON, or it is [null]. *)
Definition load_fails (b : Browser) : bool :=
  match fetch_blog b with
  | NetworkFailure _ => true
  | Responded r => match json r with JsonArray _ => false | _ => true end
  end.

(** The sample page with the hero image element of the article page. *)
Definition sample_article_world : World :=
  mkWorld (<["#article-hero-image" := blank]> sample_doc) "Munificent" [] [] 0 [] 0.

(** The sample page without a submit button in the form. *)
Definition sample_world_no_submit : World :=
  mkWorld (delete submitBtn sample_doc) "Munificent" [] [] 0 [] 0.

(* ================================================================== *)
(** * 10. Properties                                                   *)
(* ================================================================== *)

(** ** Strings *)

Lemma append_cons c s t : String c s +:+ t = String c (s +:+ t).
Proof. reflexivity. Qed.

Lemma append_empty_r s : s +:+ "" = s.
Proof. induction s as [|c s IH]; [done|]. by rewrite append_cons, IH. Qed.

Lemma append_assoc s t u : (s +:+ t) +:+ u = s +:+ t +:+ u.
Proof. induction s as [|c s IH]; [done|]. by rewrite !append_cons, IH. Qed.

Lemma length_append s t :
  String.length (s +:+ t) = String.length s + String.length t.
Proof. induction s as [|c s IH]; [done|]. rewrite append_cons. simpl. by rewrite IH. Qed.

(** [.join('')] is plain concatenation. *)
Lemma join_empty_sep l : join "" l = concat_strings l.
Proof.
  induction l as [|s [|t l] IH]; [done| |].
  - simpl. by rewrite append_empty_r.
  - change (join "" (s :: t :: l)) with (s +:+ "" +:+ join "" (t :: l)).
    rewrite IH. reflexivity.
Qed.

Lemma map_one_fragment_per_record {A : Type} (card : A → string) (data : list A) :
  one_fragment_per_record card data (join "" (map card data)).
Proof.
  exists (map card data). split; [|apply join_empty_sep].
  induction data as [|r data IH]; constructor; [reflexivity | exact IH].
Qed.

(** ** The document under [update] *)

Lemma querySelector_update sel f w :
  querySelector sel (update sel f w) = f <$> querySelector sel w.
Proof. unfold querySelector, update. simpl. apply lookup_alter_eq. Qed.

Lemma querySelector_update_ne sel sel' f w :
  sel ≠ sel' → querySelector sel' (update sel f w) = querySelector sel' w.
Proof. intros Hne. unfold querySelector, update. simpl. by apply lookup_alter_ne. Qed.

Lemma present_update sel sel' f w : present sel' (update sel f w) = present sel' w.
Proof.
  unfold present. apply bool_decide_ext.
  destruct (decide (sel = sel')) as [->|Hne].
  - rewrite querySelector_update. apply fmap_is_Some.
  - by rewrite querySelector_update_ne.
Qed.

(** ** Renderers *)

(** The shape that the four list renderers share, with the selector and
    card of each as parameters. *)
Section renderer.
Context {A : Type}.
Variable render : option (list A) → World → World.
Variable sel : string.
Variable card : A → string.
Hypothesis render_eq : ∀ data w,
  render data w =
  match querySelector sel w, data with
  | Some _, Some data => update sel (innerHTML (join "" (map card data))) w
  | _, _ => w
  end.

Lemma renderer_writes (data : list A) (w : World) (e : Element) :
  querySelector sel w = Some e →
  ∃ html, one_fragment_per_record card data html
    ∧ querySelector sel (render (Some data) w) = Some (set_content (Html html) e)
    ∧ ∀ sel', sel' ≠ sel →
        querySelector sel' (render (Some data) w) = querySelector sel' w.
Proof.
  intros He. exists (join "" (map card data)).
  split; [apply map_one_fragment_per_record|].
  rewrite render_eq, He. split.
  - by rewrite querySelector_update, He.
  - intros sel' Hne. by apply querySelector_update_ne.
Qed.

Lemma renderer_noop (data : option (list A)) (w : World) :
  data = None ∨ querySelector sel w = None → render data w = w.
Proof.
  intros [-> | Hnone]; rewrite render_eq.
  - by destruct (querySelector sel w).
  - by rewrite Hnone.
Qed.
End renderer.

(** C1. For a non-null array of records and a present container, each of
    the four renderers replaces the content of its container by the
    concatenation of one fragment per record, in the order of the array;
    the rest of the element and all other elements are as before. *)
Theorem renderers_write_one_fragment_per_record :
  (∀ (data : list TeamMember) w e,
     querySelector CONFIG_selectors_team w = Some e →
     ∃ html, one_fragment_per_record teamCard data html
       ∧ querySelector CONFIG_selectors_team (renderTeam (Some data) w)
         = Some (set_content (Html html) e)
       ∧ ∀ sel', sel' ≠ CONFIG_selectors_team →
           querySelector sel' (renderTeam (Some data) w) = querySelector sel' w)
  ∧ (∀ (data : list Product) w e,
     querySelector CONFIG_selectors_services w = Some e →
     ∃ html, one_fragment_per_record serviceCard data html
       ∧ querySelector CONFIG_selectors_services (renderServices (Some data) w)
         = Some (set_content (Html html) e)
       ∧ ∀ sel', sel' ≠ CONFIG_selectors_services →
           querySelector sel' (renderServices (Some data) w) = querySelector sel' w)
  ∧ (∀ (data : list BlogPost) w e,
     querySelector CONFIG_selectors_blog w = Some e →
     ∃ html, one_fragment_per_record blogCard data html
       ∧ querySelector CONFIG_selectors_blog (renderBlog (Some data) w)
         = Some (set_content (Html html) e)
       ∧ ∀ sel', sel' ≠ CONFIG_selectors_blog →
           querySelector sel' (renderBlog (Some data) w) = querySelector sel' w)
  ∧ (∀ (data : list BlogPost) w e,
     querySelector CONFIG_selectors_fullBlog w = Some e →
     ∃ html, one_fragment_per_record archiveCard data html
       ∧ querySelector CONFIG_selectors_fullBlog (renderAllArticles (Some data) w)
         = Some (set_content (Html html) e)
       ∧ ∀ sel', sel' ≠ CONFIG_selectors_fullBlog →
           querySelector sel' (renderAllArticles (Some data) w)
           = querySelector sel' w).
Proof.
  repeat split; intros data w e He;
    eapply renderer_writes; eauto; intros [d|] w'; reflexivity.
Qed.

Lemma renderers_write_one_fragment_per_record_witness :
  ∃ html, one_fragment_per_record teamCard sample_team html
    ∧ querySelector CONFIG_selectors_team (renderTeam (Some sample_team) sample_world)
      = Some (set_content (Html html) blank)
    ∧ ∀ sel', sel' ≠ CONFIG_selectors_team →
        querySelector sel' (renderTeam (Some sample_team) sample_world)
        = querySelector sel' sample_world.
Proof.
  apply (proj1 renderers_write_one_fragment_per_record sample_team sample_world blank).
  reflexivity.
Defined.

(** C2. With a null data argument or a missing container a renderer
    writes nothing: the world, and so the content of every container, is
    unchanged. *)
Theorem renderers_noop_without_data_or_container :
  (∀ data w, data = None ∨ querySelector CONFIG_selectors_team w = None →
     renderTeam data w = w)
  ∧ (∀ data w, data = None ∨ querySelector CONFIG_selectors_services w = None →
     renderServices data w = w)
  ∧ (∀ data w, data = None ∨ querySelector CONFIG_selectors_blog w = None →
     renderBlog data w = w)
  ∧ (∀ data w, data = None ∨ querySelector CONFIG_selectors_fullBlog w = None →
     renderAllArticles data w = w).
Proof.
  repeat split; intros data w H;
    eapply renderer_noop; eauto; intros [d|] w'; reflexivity.
Qed.

Lemma renderers_noop_without_data_or_container_witness :
  renderBlog None sample_world = sample_world
  ∧ renderTeam (Some sample_team) sample_world_no_team = sample_world_no_team.
Proof.
  split.
  - apply (proj1 (proj2 (proj2 renderers_noop_without_data_or_container))).
    left. reflexivity.
  - apply (proj1 renderers_noop_without_data_or_container).
    right. reflexivity.
Defined.

(** ** The data loader *)

Lemma console_error_grows msg err w :
  console (console_error msg err w) ≠ console w.
Proof.
  unfold console_error. simpl. intros H.
  apply (f_equal length) in H. rewrite length_app in H. simpl in H. lia.
Qed.

(** [fetchData] in closed form: the value it returns and the world it
    leaves. *)
Lemma fetchData_eq {A : Type} (url : string) (answer : FetchOutcome A) (w : World) :
  fetchData url answer w = (Return (fetched answer), fetch_log url answer w).
Proof.
  unfold fetchData, fetched, fetch_log, fetch_fails, fetch_error, try_catch,
    bind, await_fetch, await_json.
  destruct answer as [reason|r]; [done|]. simpl.
  by destruct (ok r), (json r).
Qed.

(** C3, as amended. [fetchData] never throws. It returns the parsed value
    and leaves the world alone when the fetch answers with a success
    status and a body that parses (a body [null] parses to [null]). It
    returns [null] and appends one error entry to the console when the
    network fails, when the status is not a success, and also when the
    body of a successful answer does not parse; the console changes in
    exactly these three cases. *)
Theorem fetchData_absorbs_failures :
  ∀ (A : Type) (url : string) (answer : FetchOutcome A) (w : World),
    (∀ r a, answer = Responded r → ok r = true → json r = JsonArray a →
       fetchData url answer w = (Return (Some a), w))
    ∧ (∀ r, answer = Responded r → ok r = true → json r = JsonNull →
       fetchData url answer w = (Return None, w))
    ∧ (fetch_fails answer = true →
       fetchData url answer w =
       (Return None,
        console_error ("Error fetching data from " +:+ url +:+ ":")
          (fetch_error answer) w))
    ∧ (fetch_fails answer = true ↔
       console (exec (fetchData url answer) w) ≠ console w)
    ∧ (∃ v w', fetchData url answer w = (Return v, w')).
Proof.
  intros A url answer w. unfold exec. rewrite fetchData_eq.
  unfold fetched, fetch_log. split_and!.
  - intros r a -> Hok Hj. unfold fetch_fails. by rewrite Hok, Hj.
  - intros r -> Hok Hj. unfold fetch_fails. by rewrite Hok, Hj.
  - intros Hf. rewrite Hf. f_equal.
    destruct answer as [reason|r]; [done|]. unfold fetch_fails in Hf.
    destruct (ok r); [|done]. by destruct (json r).
  - simpl. destruct (fetch_fails answer).
    + split; [intros _; apply console_error_grows | done].
    + split; [done | intros H; by destruct H].
  - eauto.
Qed.

Lemma fetchData_absorbs_failures_witness :
  fetchData CONFIG_paths_team (respond sample_team) sample_world
  = (Return (Some sample_team), sample_world).
Proof.
  apply (proj1 (fetchData_absorbs_failures _ CONFIG_paths_team
                  (respond sample_team) sample_world)
           (mkResponse 200 (JsonArray sample_team)) sample_team);
    reflexivity.
Defined.

(** C3 as first stated fails: an answer with a success status whose body
    is not JSON is neither a network error nor a non-success status, yet
    the loader logs an error (and returns [null]). *)
Lemma fetchData_logs_on_unparsable_body :
  let answer : FetchOutcome (list TeamMember) :=
    Responded (mkResponse 200 (Unparsable (SyntaxError "not JSON"))) in
  (fetchData CONFIG_paths_team answer sample_world).1 = Return None
  ∧ ¬ (console (exec (fetchData CONFIG_paths_team answer) sample_world)
         ≠ console sample_world
       ↔ network_or_status_failure answer = true).
Proof.
  split; [reflexivity|].
  intros [H _]. assert (false = true) as Hf; [|discriminate Hf].
  apply H. apply console_error_grows.
Qed.

(** ** The article page *)

Lemma find_none_of_forall {A : Type} (f : A → bool) (l : list A) :
  (∀ x, x ∈ l → f x = false) → List.find f l = None.
Proof.
  induction l as [|x l IH]; intros H; [done|]. simpl.
  rewrite (H x) by left. apply IH. intros y Hy. apply H. by right.
Qed.

Lemma strictEq_true v z : strictEq v (Num z) = true ↔ v = VNum z.
Proof.
  destruct v as [z'| |]; simpl; split; try done.
  - intros H. f_equal. lia.
  - intros [= ->]. lia.
Qed.

(** The early branch: the title is written and nothing else happens. *)
Lemma renderFullArticle_no_id b w :
  falsy (parseInt (searchParams_get (search b) "id")) = true →
  renderFullArticle b w = assign "#article-title" (textContent_set notFoundTitle) w.
Proof. intros H. unfold renderFullArticle. by rewrite H. Qed.

(** The lookup branch, once the blog data has loaded. *)
Lemma renderFullArticle_lookup b w r data :
  falsy (parseInt (searchParams_get (search b) "id")) = false →
  fetch_blog b = Responded r → json r = JsonArray data →
  renderFullArticle b w =
  try_catch
    (match
       List.find
         (fun p => strictEq (post_id p) (parseInt (searchParams_get (search b) "id")))
         data
     with
     | Some post => showPost b post
     | None => showNotFound
     end) article_catch w.
Proof.
  intros Hid Hr Hj. unfold renderFullArticle. rewrite Hid.
  unfold try_catch, bind, await_fetch, await_json, articleCallback.
  rewrite Hr. simpl. rewrite Hj. reflexivity.
Qed.

Lemma showNotFound_present w t c :
  querySelector "#article-title" w = Some t →
  querySelector "#article-content" w = Some c →
  showNotFound w =
  (Return tt,
   update "#article-content" (innerHTML notFoundContent)
     (update "#article-title" (textContent_set notFoundTitle) w)).
Proof.
  intros Ht Hc. unfold showNotFound, bind, assign. rewrite Ht.
  by rewrite querySelector_update_ne, Hc.
Qed.

(** In the early branch nothing but the title element is written. *)
Lemma renderFullArticle_no_id_frame b w sel :
  falsy (parseInt (searchParams_get (search b) "id")) = true →
  sel ≠ "#article-title" →
  querySelector sel (exec (renderFullArticle b) w) = querySelector sel w.
Proof.
  intros Hid Hsel. unfold exec. rewrite renderFullArticle_no_id by done.
  unfold assign. destruct (querySelector "#article-title" w); [|done].
  simpl. by rewrite querySelector_update_ne.
Qed.

(** C4, as amended. With the title and content elements in the page:
    when the id parameter is missing (or parses to zero or to no number)
    the title becomes the not-found string; when the id parses to a
    non-zero number that no post of the loaded blog data has, the title
    becomes the not-found string and the content becomes the fallback
    message. The numbers compared are safe integers. *)
Theorem renderFullArticle_not_found :
  ∀ b w t c,
    querySelector "#article-title" w = Some t →
    querySelector "#article-content" w = Some c →
    let id := parseInt (searchParams_get (search b) "id") in
    let w' := exec (renderFullArticle b) w in
    (searchParams_get (search b) "id" = None → falsy id = true)
    ∧ (falsy id = true →
       querySelector "#article-title" w' = Some (set_content (Text notFoundTitle) t))
    ∧ (falsy id = false →
       ∀ r data, fetch_blog b = Responded r → json r = JsonArray data →
         safe_num id = true → safe_ids data = true →
         (∀ p, p ∈ data → strictEq (post_id p) id = false) →
         querySelector "#article-title" w' = Some (set_content (Text notFoundTitle) t)
         ∧ querySelector "#article-content" w'
           = Some (set_content (Html notFoundContent) c)).
Proof.
  intros b w t c Ht Hc id w'. subst id w'. split; [|split].
  - by intros ->.
  - intros Hid. unfold exec. rewrite renderFullArticle_no_id by done.
    unfold assign. rewrite Ht. simpl. by rewrite querySelector_update, Ht.
  - intros Hid r data Hr Hj _ _ Hall. unfold exec.
    rewrite (renderFullArticle_lookup b w r data) by done.
    rewrite find_none_of_forall by done.
    unfold try_catch. rewrite (showNotFound_present w t c) by done. simpl. split.
    + by rewrite querySelector_update_ne, querySelector_update, Ht.
    + by rewrite querySelector_update, querySelector_update_ne, Hc.
Qed.

Lemma renderFullArticle_not_found_witness :
  let b := sample_browser "/article.html" [("id", "7")] in
  let w' := exec (renderFullArticle b) sample_world in
  querySelector "#article-title" w'
  = Some (mkElement (Text notFoundTitle) "" [] false "" "")
  ∧ querySelector "#article-content" w'
    = Some (mkElement (Html notFoundContent) "" [] false "" "").
Proof.
  intros b w'.
  apply (proj2 (proj2 (renderFullArticle_not_found b sample_world
    (mkElement (Text "...") "" [] false "" "")
    (mkElement (Html "<p>loading</p>") "" [] false "" "")
    eq_refl eq_refl)) eq_refl
    (mkResponse 200 (JsonArray sample_posts)) sample_posts eq_refl eq_refl
    eq_refl eq_refl).
  intros p Hp. repeat (apply elem_of_cons in Hp as [-> | Hp]; [reflexivity|]).
  by apply elem_of_nil in Hp.
Defined.

(** C4 as first stated fails: on a query with no id the title is set but
    the content element does not show the fallback message. *)
Lemma renderFullArticle_missing_id_keeps_content :
  let b := sample_browser "/article.html" [] in
  let w' := exec (renderFullArticle b) sample_world in
  searchParams_get (search b) "id" = None
  ∧ ¬ (content <$> querySelector "#article-title" w' = Some (Text notFoundTitle)
       ∧ content <$> querySelector "#article-content" w'
         = Some (Html notFoundContent)).
Proof.
  split; [reflexivity|]. intros [_ H]. vm_compute in H. discriminate H.
Qed.

(** C10. An id parameter that parses to zero or to no number takes the
    early branch: only the title is written, whatever the blog data
    holds, so a post with id 0 is never looked up. For any other id the
    post shown is the first whose id field is strictly equal to the
    parsed number: a number with that value, never a string, and never
    the post with id 0. The numbers compared are safe integers. *)
Theorem renderFullArticle_id_handling :
  ∀ b w,
    let id := parseInt (searchParams_get (search b) "id") in
    (id = NaN ∨ id = Num 0 →
     renderFullArticle b w
     = assign "#article-title" (textContent_set notFoundTitle) w)
    ∧ (∀ z, id = Num z → z ≠ 0%Z → isSafeInteger z = true →
       ∀ r data, fetch_blog b = Responded r → json r = JsonArray data →
         safe_ids data = true →
         renderFullArticle b w =
         try_catch
           (match List.find (fun p => strictEq (post_id p) (Num z)) data with
            | Some post => showPost b post
            | None => showNotFound
            end) article_catch w)
    ∧ (∀ v z, isSafeInteger z = true →
       (strictEq v (Num z) = true ↔ v = VNum z))
    ∧ (∀ z data post, z ≠ 0%Z → isSafeInteger z = true → safe_ids data = true →
       List.find (fun p => strictEq (post_id p) (Num z)) data = Some post →
       post_id post = VNum z ∧ post_id post ≠ VNum 0).
Proof.
  intros b w id. subst id. split; [|split; [|split]].
  - intros [H | H]; apply renderFullArticle_no_id; by rewrite H.
  - intros z Hz Hnz _ r data Hr Hj _.
    rewrite (renderFullArticle_lookup b w r data); [by rewrite Hz | | done..].
    rewrite Hz. simpl. lia.
  - intros v z _. apply strictEq_true.
  - intros z data post Hnz _ _ Hfind.
    apply find_some in Hfind as [_ Heq]. apply strictEq_true in Heq.
    split; [done|]. rewrite Heq. intros [= Hz]. contradiction.
Qed.

Lemma renderFullArticle_id_handling_witness :
  let b := sample_browser "/article.html" [("id", "0")] in
  let b1 := sample_browser "/article.html" [("id", "1")] in
  renderFullArticle b sample_world
  = assign "#article-title" (textContent_set notFoundTitle) sample_world
  ∧ renderFullArticle b1 sample_world
    = try_catch
        (match List.find (fun p => strictEq (post_id p) (Num 1)) sample_posts with
         | Some post => showPost b1 post
         | None => showNotFound
         end) article_catch sample_world.
Proof.
  intros b b1. split.
  - apply (proj1 (renderFullArticle_id_handling b sample_world)).
    right. reflexivity.
  - apply (proj1 (proj2 (renderFullArticle_id_handling b1 sample_world))
             1%Z eq_refl ltac:(discriminate) eq_refl
             (mkResponse 200 (JsonArray sample_posts)) sample_posts
             eq_refl eq_refl eq_refl).
Defined.

(** Beyond the safe integers the engine rounds where [parseInt] here does
    not; the bound on the theorems keeps such ids out. *)
Example parseInt_beyond_safe_integers :
  parseInt (Some "9007199254740993") = Num 9007199254740993
  ∧ safe_num (parseInt (Some "9007199254740993")) = false
  ∧ safe_num (parseInt (Some "9007199254740991")) = true.
Proof. repeat split; reflexivity. Qed.

(** On the sample page, whose blog data holds a post with id 0, the
    query [id=0] shows the not-found title and [id=1] shows post 1; an
    id given in hexadecimal or followed by other text is read by
    [parseInt] all the same. *)
Example article_id_zero_not_shown :
  content <$> querySelector "#article-title"
    (exec (renderFullArticle (sample_browser "/article.html" [("id", "0")]))
       sample_world)
  = Some (Text notFoundTitle).
Proof. reflexivity. Qed.

Example article_id_one_shown :
  content <$> querySelector "#article-title"
    (exec (renderFullArticle (sample_browser "/article.html" [("id", "1")]))
       sample_world)
  = Some (Text "One").
Proof. reflexivity. Qed.

Example article_id_string_field_not_matched :
  content <$> querySelector "#article-title"
    (exec (renderFullArticle (sample_browser "/article.html" [("id", "2")]))
       sample_world)
  = Some (Text notFoundTitle).
Proof. reflexivity. Qed.

Example parseInt_examples :
  parseInt None = NaN ∧ parseInt (Some "") = NaN ∧ parseInt (Some "abc") = NaN
  ∧ parseInt (Some "0") = Num 0 ∧ parseInt (Some "-0") = Num 0
  ∧ parseInt (Some " 12px") = Num 12 ∧ parseInt (Some "0x1F") = Num 31
  ∧ parseInt (Some "-7") = Num (-7).
Proof. repeat split; reflexivity. Qed.

(** ** The router *)

Lemma startsWith_spec s p : startsWith s p = true ↔ ∃ r, s = p +:+ r.
Proof.
  revert s. induction p as [|c p IH]; intros s.
  - split; [intros _; by exists s | done].
  - destruct s as [|d s]; simpl.
    + split; [done | intros [r Hr]; discriminate Hr].
    + destruct (decide (c = d)) as [->|Hne].
      * rewrite IH. split; intros [r Hr]; exists r.
        -- by rewrite append_cons, <- Hr.
        -- rewrite append_cons in Hr. by injection Hr.
      * split; [done | intros [r Hr]]. rewrite append_cons in Hr.
        injection Hr as Hcd _. congruence.
Qed.

(** [includes] is the substring test. *)
Lemma includes_spec s p : includes s p = true ↔ ∃ a r, s = a +:+ p +:+ r.
Proof.
  induction s as [|d s IH].
  - simpl. rewrite orb_false_r, startsWith_spec. split.
    + intros [r Hr]. by exists "", r.
    + intros [[|c a] [r Hr]]; [by exists r | discriminate Hr].
  - change (includes (String d s) p)
      with (startsWith (String d s) p || includes s p).
    rewrite orb_true_iff, startsWith_spec, IH. split.
    + intros [[r Hr] | (a & r & Hr)].
      * by exists "", r.
      * exists (String d a), r. by rewrite append_cons, <- Hr.
    + intros ([|c a] & r & Hr).
      * left. by exists r.
      * right. rewrite append_cons in Hr. injection Hr as _ Hr. by exists a, r.
Qed.

Lemma route_spec path :
  (route path = Article ↔ includes path "article.html" = true)
  ∧ (route path = Archive ↔
     includes path "article.html" = false ∧ includes path "blog.html" = true)
  ∧ (route path = Landing ↔
     includes path "article.html" = false ∧ includes path "blog.html" = false).
Proof.
  unfold route.
  destruct (includes path "article.html"), (includes path "blog.html");
    repeat split; try done; intros []; done.
Qed.

(** The three parallel loads of the landing page: the values in argument
    order, the log lines in settling order. *)
Lemma Promise_all3_fetchData b w :
  Promise_all3 (settle_order b)
    (fetchData CONFIG_paths_team (fetch_team b))
    (fetchData CONFIG_paths_products (fetch_products b))
    (fetchData CONFIG_paths_blog (fetch_blog b)) w
  = (Return (fetched (fetch_team b), fetched (fetch_products b),
             fetched (fetch_blog b)),
     fetch_logs b w).
Proof.
  unfold Promise_all3, fetch_logs.
  destruct (settle_order b); unfold bind; by rewrite !fetchData_eq.
Qed.

(** C5, as amended. [init] logs its greeting and then takes exactly one
    of three branches, chosen by substring tests on the path, the article
    test first: the article page; else the archive, which loads the blog
    data and renders all articles; else the landing page, where the three
    fetches and the three renderers run when the team container exists
    (the failing loads logging in the order in which they settle), and
    nothing at all is fetched or rendered when it does not, whatever other
    containers the page has. *)
Theorem init_dispatches_by_path :
  ∀ b w,
    match route (pathname b) with
    | Article => init b w = renderFullArticle b (greeted w)
    | Archive =>
        init b w =
        (Return tt,
         renderAllArticles (fetched (fetch_blog b))
           (fetch_log CONFIG_paths_blog (fetch_blog b) (greeted w)))
    | Landing =>
        init b w =
        (Return tt,
         if present CONFIG_selectors_team w
         then
           renderBlog (fetched (fetch_blog b))
             (renderServices (fetched (fetch_products b))
                (renderTeam (fetched (fetch_team b))
                   (fetch_logs b (greeted w))))
         else greeted w)
    end.
Proof.
  intros b w. unfold route, init.
  destruct (includes (pathname b) "article.html"); [reflexivity|].
  destruct (includes (pathname b) "blog.html").
  - unfold bind at 1. unfold act at 1. fold (greeted w).
    unfold bind. by rewrite fetchData_eq.
  - unfold bind at 1. unfold act at 1. fold (greeted w).
    unfold bind at 1, present.
    change (querySelector CONFIG_selectors_team (greeted w))
      with (querySelector CONFIG_selectors_team w).
    destruct (querySelector CONFIG_selectors_team w) as [e|] eqn:Hteam.
    + rewrite bool_decide_true by eauto.
      unfold bind at 1. by rewrite Promise_all3_fetchData.
    + rewrite bool_decide_false; [done|]. by intros [? ?].
Qed.

(** On the sample landing page every container gets its cards; on the
    archive page only the full list does. *)
Example init_landing_renders_all :
  let w' := exec (init (sample_browser "/index.html" [])) sample_world in
  content <$> querySelector CONFIG_selectors_team w'
  = Some (Html (join "" (map teamCard sample_team)))
  ∧ content <$> querySelector CONFIG_selectors_services w'
    = Some (Html (join "" (map serviceCard sample_products)))
  ∧ content <$> querySelector CONFIG_selectors_blog w'
    = Some (Html (join "" (map blogCard sample_posts)))
  ∧ querySelector CONFIG_selectors_fullBlog w'
    = querySelector CONFIG_selectors_fullBlog sample_world.
Proof. repeat split; reflexivity. Qed.

Example init_archive_renders_full_list :
  let w' := exec (init (sample_browser "/blog.html" [])) sample_world in
  content <$> querySelector CONFIG_selectors_fullBlog w'
  = Some (Html (join "" (map archiveCard sample_posts)))
  ∧ querySelector CONFIG_selectors_team w'
    = querySelector CONFIG_selectors_team sample_world
  ∧ querySelector CONFIG_selectors_blog w'
    = querySelector CONFIG_selectors_blog sample_world.
Proof. repeat split; reflexivity. Qed.

(** Two loads fail and the blog file settles first: its error line comes
    before that of the team file. *)
Example init_logs_in_settling_order :
  let b := mkBrowser "/index.html" [] "https://example.org/" (fun s => s)
             (NetworkFailure (TypeError "offline")) (respond sample_products)
             (NetworkFailure (TypeError "reset")) Order321 DefaultMode in
  console (exec (init b) sample_world)
  = [ ConsoleLog "System initialized. Welcome to Munificent." None;
      ConsoleError "Error fetching data from data/blog.json:" (TypeError "reset");
      ConsoleError "Error fetching data from data/team.json:"
        (TypeError "offline") ].
Proof. reflexivity. Qed.

(** The three branches exclude one another, and a path that names both
    pages is an article page. *)
Example route_examples :
  route "/article.html" = Article ∧ route "/blog.html" = Archive
  ∧ route "/" = Landing ∧ route "/index.html" = Landing
  ∧ route "/blog.html/article.html" = Article.
Proof. repeat split; reflexivity. Qed.

(** C5 as first stated fails for the renderers other than the team one:
    on a landing page that has the services container and not the team
    container, the products load and yet the services container is not
    rendered. *)
Lemma init_skips_services_without_team_container :
  let b := sample_browser "/index.html" [] in
  let w' := exec (init b) sample_world_no_team in
  route (pathname b) = Landing
  ∧ present CONFIG_selectors_services sample_world_no_team = true
  ∧ fetched (fetch_products b) = Some sample_products
  ∧ ¬ (querySelector CONFIG_selectors_services w'
       = querySelector CONFIG_selectors_services
           (renderServices (Some sample_products) sample_world_no_team)).
Proof.
  repeat split; try reflexivity. intros H. vm_compute in H. discriminate H.
Qed.

(** ** The mobile menu *)

Lemma elem_of_classList_remove l c x :
  x ∈ classList_remove l c ↔ x ∈ l ∧ x ≠ c.
Proof.
  unfold classList_remove. rewrite !list_elem_of_In, filter_In.
  rewrite negb_true_iff, bool_decide_eq_false. reflexivity.
Qed.

Lemma elem_of_classList_add l c x : x ∈ classList_add l c ↔ x ∈ l ∨ x = c.
Proof.
  unfold classList_add, classList_contains. case_bool_decide as Hc.
  - split; [by left | intros [H | ->]; done].
  - rewrite elem_of_app, list_elem_of_singleton. reflexivity.
Qed.

Lemma classList_remove_absent l c : c ∉ l → classList_remove l c = l.
Proof.
  intros Hc. unfold classList_remove. induction l as [|x l IH]; [done|]. simpl.
  apply not_elem_of_cons in Hc as [Hne Hc].
  rewrite bool_decide_false by done. simpl. by rewrite IH.
Qed.

Lemma classList_remove_app l k c :
  classList_remove (l ++ k) c = classList_remove l c ++ classList_remove k c.
Proof. unfold classList_remove. apply List.filter_app. Qed.

(** Adding a token that was absent and removing it again gives the very
    same list. *)
Lemma classList_add_remove l c :
  classList_contains l c = false →
  classList_remove (classList_add l c) c = l.
Proof.
  intros Hc. unfold classList_add. rewrite Hc.
  apply bool_decide_eq_false in Hc.
  rewrite classList_remove_app, classList_remove_absent by done.
  unfold classList_remove. simpl. rewrite bool_decide_true by done. simpl.
  apply app_nil_r.
Qed.

Lemma elem_of_classList_toggle_twice l c x :
  x ∈ classList_toggle (classList_toggle l c) c ↔ x ∈ l.
Proof.
  unfold classList_toggle. destruct (classList_contains l c) eqn:Hc.
  - assert (classList_contains (classList_remove l c) c = false) as ->.
    { apply bool_decide_eq_false. rewrite elem_of_classList_remove. tauto. }
    apply bool_decide_eq_true in Hc.
    rewrite elem_of_classList_add, elem_of_classList_remove.
    destruct (decide (x = c)) as [->|]; tauto.
  - assert (classList_contains (classList_add l c) c = true) as ->.
    { apply bool_decide_eq_true. rewrite elem_of_classList_add. tauto. }
    by rewrite classList_add_remove.
Qed.

(** Two toggles of a token leave every token's membership as it was. *)
Lemma classList_toggle_twice l c x :
  classList_contains (classList_toggle (classList_toggle l c) c) x
  = classList_contains l x.
Proof. apply bool_decide_ext, elem_of_classList_toggle_twice. Qed.

(** A token that was absent is appended and then removed: the list is
    restored exactly. One that was present is removed and then appended:
    it moves to the end. *)
Lemma classList_toggle_twice_absent l c :
  classList_contains l c = false →
  classList_toggle (classList_toggle l c) c = l.
Proof.
  intros Hc. unfold classList_toggle at 2. rewrite Hc.
  unfold classList_toggle.
  assert (classList_contains (classList_add l c) c = true) as ->.
  { apply bool_decide_eq_true. rewrite elem_of_classList_add. tauto. }
  by apply classList_add_remove.
Qed.

Example classList_toggle_twice_moves_token :
  classList_toggle (classList_toggle ["active"; "wide"] "active") "active"
  = ["wide"; "active"].
Proof. reflexivity. Qed.

Lemma setupMobileMenu_wired_update sel f w :
  setupMobileMenu_wired (update sel f w) = setupMobileMenu_wired w.
Proof. unfold setupMobileMenu_wired. by rewrite !present_update. Qed.

(** C7. Two clicks on the menu toggle leave the navigation panel and the
    toggle with the classes they had before: every token is in the class
    list after the two clicks exactly when it was before, and nothing
    else of the two elements changes. *)
Theorem menu_toggle_twice_restores_classes :
  ∀ b w sel e,
    sel = ".nav-links" ∨ sel = ".menu-toggle" →
    querySelector sel w = Some e →
    ∃ classes,
      querySelector sel (dispatch b ClickMenuToggle (dispatch b ClickMenuToggle w))
      = Some (set_classList (fun _ => classes) e)
      ∧ ∀ c, classList_contains classes c = classList_contains (classList e) c.
Proof.
  intros b w sel e Hsel He. unfold dispatch.
  destruct (setupMobileMenu_wired w) eqn:Hw.
  - assert (setupMobileMenu_wired (menuToggle_click w) = true) as ->.
    { unfold menuToggle_click. by rewrite !setupMobileMenu_wired_update. }
    destruct Hsel as [-> | ->].
    + exists (classList_toggle (classList_toggle (classList e) "active") "active").
      split; [|intros c; apply classList_toggle_twice].
      unfold menuToggle_click.
      rewrite querySelector_update_ne, querySelector_update by done.
      rewrite querySelector_update_ne, querySelector_update by done.
      by rewrite He.
    + exists (classList_toggle (classList_toggle (classList e) "open") "open").
      split; [|intros c; apply classList_toggle_twice].
      unfold menuToggle_click.
      rewrite querySelector_update, querySelector_update_ne by done.
      rewrite querySelector_update, querySelector_update_ne by done.
      by rewrite He.
  - rewrite Hw. exists (classList e). split; [|done]. rewrite He. by destruct e.
Qed.

Lemma menu_toggle_twice_restores_classes_witness :
  ∃ classes,
    querySelector ".nav-links"
      (dispatch (sample_browser "/" []) ClickMenuToggle
         (dispatch (sample_browser "/" []) ClickMenuToggle sample_world))
    = Some (set_classList (fun _ => classes) sample_nav)
    ∧ ∀ c, classList_contains classes c
           = classList_contains (classList sample_nav) c.
Proof.
  apply (menu_toggle_twice_restores_classes (sample_browser "/" []) sample_world
           ".nav-links" sample_nav).
  - left. reflexivity.
  - reflexivity.
Defined.

(** ** Timers *)

Lemma runTask_clock t n l w :
  runTask t (with_clock n l w) = with_clock n l (runTask t w).
Proof. by destruct t. Qed.

Lemma with_clock_twice n l n' l' w :
  with_clock n l (with_clock n' l' w) = with_clock n l w.
Proof. reflexivity. Qed.

(** With nothing pending, time just passes. *)
Lemma advance_idle n w :
  timers w = [] → advance n w = with_clock (now w + n) [] w.
Proof.
  intros Ht. induction n as [|n IH].
  - simpl. rewrite Nat.add_0_r, <- Ht. by destruct w.
  - unfold advance in *. simpl. rewrite IH. unfold tick. simpl.
    by rewrite Nat.add_succ_r.
Qed.

(** One pending timeout does not run before it is due. *)
Lemma advance_before n w due t :
  timers w = [(due, t)] → now w + n < due →
  advance n w = with_clock (now w + n) [(due, t)] w.
Proof.
  intros Ht. induction n as [|n IH]; intros Hlt.
  - simpl. rewrite Nat.add_0_r, <- Ht. by destruct w.
  - unfold advance in *. simpl. rewrite IH by lia. unfold tick. simpl.
    destruct (Nat.leb_spec due (S (now w + n))) as [Hle|_]; [lia|]. simpl.
    by rewrite Nat.add_succ_r.
Qed.

(** It has run once it is due, and then nothing is pending. *)
Lemma advance_fire n w due t :
  timers w = [(due, t)] → now w < due → due ≤ now w + n →
  advance n w = with_clock (now w + n) [] (runTask t w).
Proof.
  intros Ht Hlt. induction n as [|n IH]; intros Hle; [lia|].
  destruct (decide (due ≤ now w + n)) as [Hfired|Hnot].
  - unfold advance in *. simpl. rewrite IH by done. unfold tick. simpl.
    by rewrite Nat.add_succ_r.
  - change (advance (S n) w) with (tick (advance n w)).
    rewrite (advance_before n w due t) by (done || lia).
    unfold tick. simpl.
    destruct (Nat.leb_spec due (S (now w + n))) as [_|Hgt]; [|lia]. simpl.
    rewrite !runTask_clock, Nat.add_succ_r. reflexivity.
Qed.

(** ** The modal *)

Lemma setupModal_wired_update sel f w :
  setupModal_wired (update sel f w) = setupModal_wired w.
Proof. unfold setupModal_wired. by rewrite !present_update. Qed.

Lemma setupModal_wired_clock n l w :
  setupModal_wired (with_clock n l w) = setupModal_wired w.
Proof. reflexivity. Qed.

(** The two ways to close the modal: its close button, and a click on
    the modal itself outside the dialog. *)
Lemma dispatch_close b close w :
  close = ClickCloseBtn ∨ close = ClickWindow true →
  dispatch b close w = if setupModal_wired w then closeModal w else w.
Proof. intros [-> | ->]; simpl; [done|]. by rewrite andb_true_r. Qed.

(** C8, as amended. From a hidden modal with no timeout pending, a click
    on the open button, a close action at least 10 ms later (so that the
    timeout of the open click has run), and the 300 ms of the closing
    delay bring the modal element back to exactly what it was: not
    displayed and without the open class, with no timeout left
    pending. *)
Theorem modal_open_close_restores_hidden :
  ∀ b w e close d1 d2,
    querySelector "#modal" w = Some e →
    display e = "none" →
    classList_contains (classList e) "modal--open" = false →
    timers w = [] →
    close = ClickCloseBtn ∨ close = ClickWindow true →
    10 ≤ d1 → 300 ≤ d2 →
    let w' :=
      advance d2 (dispatch b close (advance d1 (dispatch b ClickOpenBtn w)))
    in
    querySelector "#modal" w' = Some e ∧ timers w' = [] ∧ modalHidden w'.
Proof.
  intros b w e close d1 d2 He Hd Hc Ht Hclose Hd1 Hd2 w'.
  assert (querySelector "#modal" w' = Some e ∧ timers w' = []) as [He' Ht'];
    [|by (repeat split; try done); exists e].
  subst w'. rewrite (dispatch_close b close) by done.
  unfold dispatch. destruct (setupModal_wired w) eqn:Hw.
  - rewrite (advance_fire d1 (openBtn_click w) (now w + 10) AddOpenClass);
      [|by (unfold openBtn_click, setTimeout; simpl; rewrite ?Ht)
       |simpl; lia..].
    set (w2 := with_clock _ _ _).
    assert (setupModal_wired w2 = true) as ->.
    { subst w2. rewrite setupModal_wired_clock. unfold runTask.
      rewrite setupModal_wired_update. unfold openBtn_click, setTimeout.
      rewrite setupModal_wired_clock. by rewrite setupModal_wired_update. }
    rewrite (advance_fire d2 (closeModal w2) (now w2 + 300) HideModal);
      [|reflexivity|simpl; lia..].
    split; [|reflexivity].
    unfold runTask, closeModal, setTimeout. subst w2.
    unfold runTask, openBtn_click, setTimeout.
    change (querySelector "#modal" (with_clock ?n ?l ?x))
      with (querySelector "#modal" x).
    rewrite querySelector_update.
    change (querySelector "#modal" (with_clock ?n ?l ?x))
      with (querySelector "#modal" x).
    rewrite querySelector_update.
    change (querySelector "#modal" (with_clock ?n ?l ?x))
      with (querySelector "#modal" x).
    rewrite querySelector_update.
    change (querySelector "#modal" (with_clock ?n ?l ?x))
      with (querySelector "#modal" x).
    rewrite querySelector_update, He. simpl.
    destruct e as [cont disp cls dis val dval]. simpl in *. subst disp.
    unfold set_display, set_classList. simpl.
    by rewrite classList_add_remove.
  - rewrite (advance_idle d1 w) by done.
    rewrite setupModal_wired_clock, Hw.
    rewrite advance_idle by done. by split.
Qed.

Lemma modal_open_close_restores_hidden_witness :
  let b := sample_browser "/" [] in
  let w' :=
    advance 300
      (dispatch b ClickCloseBtn (advance 10 (dispatch b ClickOpenBtn sample_world)))
  in
  querySelector "#modal" w' = Some sample_modal ∧ timers w' = [] ∧ modalHidden w'.
Proof.
  intros b w'.
  apply (modal_open_close_restores_hidden b sample_world sample_modal
           ClickCloseBtn 10 300);
    try (reflexivity || lia).
  left. reflexivity.
Defined.

(** C8 as first stated fails when the close click comes before the
    timeout of the open click has run: that timeout then adds the open
    class after the close click removed it, and once every delay has
    elapsed the modal is not displayed but still carries the open class. *)
Lemma modal_close_right_after_open_keeps_open_class :
  let b := sample_browser "/" [] in
  let w' :=
    advance 300 (dispatch b ClickCloseBtn (dispatch b ClickOpenBtn sample_world))
  in
  modalHidden sample_world ∧ timers sample_world = []
  ∧ timers w' = []
  ∧ querySelector "#modal" w'
    = Some (set_classList (fun _ => ["modal"; "modal--open"]) sample_modal)
  ∧ ¬ modalHidden w'.
Proof.
  repeat split; try reflexivity.
  - exists sample_modal. repeat split; reflexivity.
  - intros (e & He & _ & Hc). vm_compute in He. injection He as <-.
    vm_compute in Hc. discriminate Hc.
Qed.

(** The bound of 10 ms is the least one: a close click 9 ms after the
    open click still leaves the open class behind. *)
Example modal_close_9ms_after_open :
  let b := sample_browser "/" [] in
  classList <$> querySelector "#modal"
    (advance 300
       (dispatch b ClickCloseBtn (advance 9 (dispatch b ClickOpenBtn sample_world))))
  = Some ["modal"; "modal--open"].
Proof. reflexivity. Qed.

(** ** The set of elements is fixed *)

Lemma dom_update sel f w : dom (doc (update sel f w)) = dom (doc w).
Proof. unfold update. simpl. apply dom_alter_L. Qed.

Lemma dom_runTask t w : dom (doc (runTask t w)) = dom (doc w).
Proof. destruct t; apply dom_update. Qed.

Lemma dom_closeModal w : dom (doc (closeModal w)) = dom (doc w).
Proof. unfold closeModal, setTimeout. simpl. apply dom_alter_L. Qed.

Lemma dom_tick w : dom (doc (tick w)) = dom (doc w).
Proof.
  unfold tick.
  change (dom (doc w)) with (dom (doc (with_clock (S (now w))
    (List.filter (fun p => negb (p.1 <=? S (now w))) (timers w)) w))).
  generalize (with_clock (S (now w))
    (List.filter (fun p => negb (p.1 <=? S (now w))) (timers w)) w).
  induction (List.filter (fun p => p.1 <=? S (now w)) (timers w)) as [|p l IH];
    intros w0; [done|].
  simpl. rewrite IH. apply dom_runTask.
Qed.

Lemma dom_form_submit b rnd w : dom (doc (exec (form_submit b rnd) w)) = dom (doc w).
Proof.
  unfold exec, form_submit, bind, act, ret, throw. simpl.
  destruct (querySelector contactNumberInput w) as [i|].
  - rewrite querySelector_update_ne by done.
    destruct (querySelector submitBtn w); simpl; by rewrite ?dom_alter_L.
  - destruct (querySelector submitBtn w); simpl; by rewrite ?dom_alter_L.
Qed.

Lemma dom_sendForm_settled s label w :
  dom (doc (sendForm_settled s label w)) = dom (doc w).
Proof.
  unfold sendForm_settled. rewrite !dom_update.
  destruct s; [|done]. unfold form_reset. by rewrite dom_update, dom_closeModal.
Qed.

Lemma dom_dispatch b ev w : dom (doc (dispatch b ev w)) = dom (doc w).
Proof.
  destruct ev; simpl;
    repeat match goal with |- context [if ?c then _ else _] => destruct c end;
    try done.
  - unfold openBtn_click, setTimeout. simpl. apply dom_alter_L.
  - apply dom_closeModal.
  - apply dom_closeModal.
  - unfold menuToggle_click. by rewrite !dom_update.
  - unfold navLink_click. by rewrite !dom_update.
  - apply dom_form_submit.
  - apply dom_sendForm_settled.
  - apply dom_tick.
Qed.

Lemma dom_run b evs w : dom (doc (run b evs w)) = dom (doc w).
Proof.
  revert w. induction evs as [|ev evs IH]; intros w; [done|].
  unfold run in *. simpl. rewrite IH. apply dom_dispatch.
Qed.

Lemma querySelector_is_Some_dom sel w w' :
  dom (doc w') = dom (doc w) →
  is_Some (querySelector sel w) → is_Some (querySelector sel w').
Proof.
  unfold querySelector. intros Hdom H.
  apply elem_of_dom. rewrite Hdom. by apply elem_of_dom.
Qed.

(** ** The contact form *)

(** C6. When the submit listener has called the widget, it holds the
    label that the submit button showed just before. Whatever happens to
    the page until the widget's promise settles, and whether it resolves
    or rejects, the callbacks leave the button enabled and showing that
    label. *)
Theorem submit_button_restored_after_settlement :
  ∀ b rnd w label w1,
    form_submit b rnd w = (Return label, w1) →
    (∃ e, querySelector submitBtn w = Some e ∧ label = textContent b e)
    ∧ (∃ e1, querySelector submitBtn w1 = Some e1 ∧ disabled e1 = true
             ∧ textContent b e1 = "Отправка...")
    ∧ ∀ evs s,
        ∃ e', querySelector submitBtn (sendForm_settled s label (run b evs w1))
              = Some e'
          ∧ disabled e' = false
          ∧ textContent b e' = label.
Proof.
  intros b rnd w label w1 Hsubmit.
  assert (∃ e w0, querySelector submitBtn w = Some e ∧ label = textContent b e
            ∧ w1 = with_sendForm
                     (update submitBtn (set_disabled true)
                        (update submitBtn (textContent_set "Отправка...") w0))
            ∧ querySelector submitBtn w0 = Some e)
    as (e & w0 & He & Hlabel & -> & He0).
  { unfold form_submit, bind, act, ret, throw in Hsubmit. simpl in Hsubmit.
    destruct (querySelector contactNumberInput w) as [i|].
    - rewrite querySelector_update_ne in Hsubmit by done.
      destruct (querySelector submitBtn w) as [e|] eqn:He; [|done].
      injection Hsubmit as <- <-.
      exists e, (update contactNumberInput
                   (assign_value (contact_number_mode b) (pretty rnd)) w).
      split_and!; [done..|]. by rewrite querySelector_update_ne.
    - destruct (querySelector submitBtn w) as [e|] eqn:He; [|done].
      injection Hsubmit as <- <-. by exists e, w. }
  split; [by exists e|]. split.
  - exists (set_disabled true (textContent_set "Отправка..." e)).
    split; [|done].
    change (querySelector submitBtn (with_sendForm ?x))
      with (querySelector submitBtn x).
    by rewrite !querySelector_update, He0.
  - intros evs s. set (w1 := with_sendForm _).
    assert (is_Some (querySelector submitBtn w1)) as H1.
    { subst w1. change (querySelector submitBtn (with_sendForm ?x))
        with (querySelector submitBtn x).
      rewrite !querySelector_update, He0. eauto. }
    unfold sendForm_settled. set (w2 := match s with Resolved => _ | _ => _ end).
    assert (is_Some (querySelector submitBtn w2)) as [e2 He2].
    { eapply (querySelector_is_Some_dom _ (run b evs w1)).
      - subst w2. destruct s; [|done]. unfold form_reset.
        by rewrite dom_update, dom_closeModal.
      - eapply querySelector_is_Some_dom; [apply dom_run | done]. }
    exists (set_disabled false (textContent_set label e2)). split; [|done].
    by rewrite !querySelector_update, He2.
Qed.

Lemma submit_button_restored_after_settlement_witness :
  let b := sample_browser "/" [] in
  ∃ e', querySelector submitBtn
          (sendForm_settled (Rejected (Error "timeout")) "Send"
             (run b [Tick; ClickOpenBtn; Tick]
                (exec (form_submit b 4711) sample_world)))
        = Some e'
    ∧ disabled e' = false
    ∧ textContent b e' = "Send".
Proof.
  intros b.
  apply (proj2 (proj2 (submit_button_restored_after_settlement b 4711 sample_world
    "Send" (exec (form_submit b 4711) sample_world) eq_refl))).
Defined.

(** ** Tags in the two blog renderers *)

Lemma slice_0 {A : Type} (n : nat) (l : list A) : slice 0 n l = firstn n l.
Proof. unfold slice. simpl. by rewrite Nat.sub_0_r. Qed.

Lemma join_app (l k : list string) : join "" (l ++ k) = join "" l +:+ join "" k.
Proof.
  rewrite !join_empty_sep. induction l as [|s l IH]; [done|].
  simpl. by rewrite IH, append_assoc.
Qed.

Lemma tagSpan_nonempty tag : 0 < String.length (tagSpan tag).
Proof. unfold tagSpan. rewrite length_append. vm_compute. lia. Qed.

Lemma join_tagSpan_nonempty (tags : list string) :
  tags ≠ [] → 0 < String.length (join "" (map tagSpan tags)).
Proof.
  destruct tags as [|t tags]; [done|]. intros _.
  change (t :: tags) with ([t] ++ tags).
  rewrite map_app, join_app, length_append. simpl.
  pose proof (tagSpan_nonempty t). lia.
Qed.

(** With more than two tags the two renderers emit different tag
    markup. *)
Lemma previewTags_neq_archiveTags post :
  2 < length (post_tags post) → previewTags post ≠ archiveTags post.
Proof.
  intros Hlen Heq. unfold previewTags, archiveTags in Heq.
  rewrite slice_0 in Heq.
  rewrite <- (firstn_skipn 2 (post_tags post)) in Heq at 2.
  rewrite map_app, join_app in Heq.
  apply (f_equal String.length) in Heq. rewrite length_append in Heq.
  assert (skipn 2 (post_tags post) ≠ []) as Hne.
  { intros H. apply (f_equal length) in H. rewrite length_skipn in H.
    simpl in H. lia. }
  pose proof (join_tagSpan_nonempty _ Hne). lia.
Qed.

(** Cancelling a common suffix. *)
Lemma append_inj_r s t u : s +:+ u = t +:+ u → s = t.
Proof.
  intros H.
  assert (String.length s = String.length t) as Hlen.
  { apply (f_equal String.length) in H. rewrite !length_append in H. lia. }
  revert t H Hlen. induction s as [|c s IH]; intros [|d t] H Hlen;
    try done.
  rewrite !append_cons in H. injection H as -> H.
  f_equal. apply IH; [done|]. simpl in Hlen. lia.
Qed.

(** The two cards differ for every post: the archive card opens with a
    [style] attribute where the preview card closes its tag. *)
Lemma blogCard_neq_archiveCard post : blogCard post ≠ archiveCard post.
Proof.
  unfold blogCard, archiveCard. intros H.
  set (x := post_date post +:+ _) in H at 1.
  set (y := post_date post +:+ _) in H.
  clearbody x y. vm_compute in H. congruence.
Qed.

(** C9. The preview card carries the markup of the first two tags of a
    post at most, and is the same for two posts that differ only in the
    tags after the second; the archive card carries the markup of every
    tag, which can be read back from the card; and for a post with more
    than two tags the tag markup of the two cards differs, and so do the
    cards. *)
Theorem preview_shows_two_tags_archive_all :
  ∀ post,
    previewTags post = join "" (map tagSpan (firstn 2 (post_tags post)))
    ∧ length (firstn 2 (post_tags post)) ≤ 2
    ∧ blogCard post = blogCard (with_tags (firstn 2 (post_tags post)) post)
    ∧ archiveTags post = join "" (map tagSpan (post_tags post))
    ∧ (∀ tags, archiveCard (with_tags tags post) = archiveCard post →
         join "" (map tagSpan tags) = join "" (map tagSpan (post_tags post)))
    ∧ (2 < length (post_tags post) →
       previewTags post ≠ archiveTags post ∧ blogCard post ≠ archiveCard post).
Proof.
  intros post. split_and!.
  - unfold previewTags. by rewrite slice_0.
  - rewrite length_firstn. lia.
  - unfold blogCard, previewTags. simpl. rewrite !slice_0.
    by rewrite firstn_firstn.
  - reflexivity.
  - intros tags H. unfold archiveCard, archiveTags in H. simpl in H.
    do 5 apply String.app_inj in H. by apply append_inj_r in H.
  - intros Hlen. split; [by apply previewTags_neq_archiveTags|].
    apply blogCard_neq_archiveCard.
Qed.

Lemma preview_shows_two_tags_archive_all_witness :
  let post := mkBlogPost (VNum 1) "2024-01-02" ["a"; "b"; "c"] "One" "e1"
                "article.html?id=1" None None in
  previewTags post ≠ archiveTags post ∧ blogCard post ≠ archiveCard post.
Proof.
  intros post.
  apply (proj2 (proj2 (proj2 (proj2 (proj2
    (preview_shows_two_tags_archive_all post)))))).
  simpl. lia.
Defined.

(* ================================================================== *)
(** * 11. Further properties                                           *)
(* ================================================================== *)

(** ** Renderers: composition *)

Lemma update_update sel f g w :
  update sel f (update sel g w) = update sel (f ∘ g) w.
Proof. unfold update, with_doc. simpl. by rewrite alter_alter_eq. Qed.

Lemma update_commute sel sel' f g w :
  sel ≠ sel' → update sel f (update sel' g w) = update sel' g (update sel f w).
Proof. intros Hne. unfold update, with_doc. simpl. by rewrite alter_alter_ne. Qed.

Lemma update_ext sel f g w :
  (∀ e, f e = g e) → update sel f w = update sel g w.
Proof.
  intros Hfg. unfold update, with_doc. f_equal. apply alter_ext. auto.
Qed.

Section renderer_composition.
Context {A : Type}.
Variable render : option (list A) → World → World.
Variable sel : string.
Variable card : A → string.
Hypothesis render_eq : ∀ data w,
  render data w =
  match querySelector sel w, data with
  | Some _, Some data => update sel (innerHTML (join "" (map card data))) w
  | _, _ => w
  end.

Lemma renderer_lookup data w s :
  querySelector s (render data w) =
  if decide (s = sel) then rendered_element card data <$> querySelector s w
  else querySelector s w.
Proof.
  rewrite render_eq. destruct (decide (s = sel)) as [->|Hne].
  - destruct (querySelector sel w) as [e|] eqn:He, data as [d|]; simpl;
      rewrite ?querySelector_update, ?He; done.
  - destruct (querySelector sel w), data; try done.
    by rewrite querySelector_update_ne.
Qed.

Lemma renderer_last_wins data (data' : list A) w :
  render (Some data') (render data w) = render (Some data') w.
Proof.
  rewrite !render_eq. destruct (querySelector sel w) as [e|] eqn:He.
  - destruct data as [d|]; [|by rewrite He].
    rewrite querySelector_update, He. simpl. rewrite update_update.
    by apply update_ext.
  - destruct data; by rewrite He.
Qed.

Lemma renderer_null_after data w : render None (render data w) = render data w.
Proof. rewrite (render_eq None). by destruct (querySelector sel _). Qed.
End renderer_composition.

Section renderer_commute.
Context {A B : Type}.
Variable render1 : option (list A) → World → World.
Variable render2 : option (list B) → World → World.
Variable sel1 sel2 : string.
Variable card1 : A → string.
Variable card2 : B → string.
Hypothesis sel_ne : sel1 ≠ sel2.
Hypothesis render1_eq : ∀ data w,
  render1 data w =
  match querySelector sel1 w, data with
  | Some _, Some data => update sel1 (innerHTML (join "" (map card1 data))) w
  | _, _ => w
  end.
Hypothesis render2_eq : ∀ data w,
  render2 data w =
  match querySelector sel2 w, data with
  | Some _, Some data => update sel2 (innerHTML (join "" (map card2 data))) w
  | _, _ => w
  end.

Lemma renderers_commute_generic d1 d2 w :
  render1 d1 (render2 d2 w) = render2 d2 (render1 d1 w).
Proof.
  rewrite !render1_eq, !render2_eq.
  destruct (querySelector sel1 w) as [e1|] eqn:H1,
    (querySelector sel2 w) as [e2|] eqn:H2, d1 as [d1|], d2 as [d2|];
    rewrite ?querySelector_update_ne, ?H1, ?H2 by done; try done.
  by apply update_commute.
Qed.
End renderer_commute.

(** X1. Rendering again replaces what was rendered before: for each of the
    four renderers the last array wins, whatever was rendered first, and a
    later call with [null] changes nothing. *)
Theorem renderers_last_write_wins :
  (∀ d d' w, renderTeam (Some d') (renderTeam d w) = renderTeam (Some d') w)
  ∧ (∀ d d' w,
       renderServices (Some d') (renderServices d w) = renderServices (Some d') w)
  ∧ (∀ d d' w, renderBlog (Some d') (renderBlog d w) = renderBlog (Some d') w)
  ∧ (∀ d d' w,
       renderAllArticles (Some d') (renderAllArticles d w)
       = renderAllArticles (Some d') w)
  ∧ (∀ d w, renderTeam None (renderTeam d w) = renderTeam d w)
  ∧ (∀ d w, renderServices None (renderServices d w) = renderServices d w)
  ∧ (∀ d w, renderBlog None (renderBlog d w) = renderBlog d w)
  ∧ (∀ d w, renderAllArticles None (renderAllArticles d w) = renderAllArticles d w).
Proof.
  split_and!; intros;
    first [ eapply renderer_last_wins | eapply renderer_null_after ];
    intros [?|] ?; reflexivity.
Qed.

(** X2. The three landing-page renderers write to disjoint containers:
    they commute, so the order in which [init] calls them does not
    matter. *)
Theorem landing_renderers_commute :
  ∀ team products posts w,
    renderTeam team (renderServices products w)
    = renderServices products (renderTeam team w)
    ∧ renderTeam team (renderBlog posts w) = renderBlog posts (renderTeam team w)
    ∧ renderServices products (renderBlog posts w)
      = renderBlog posts (renderServices products w).
Proof.
  intros. split_and!;
    (eapply renderers_commute_generic; [|intros [?|] ?; reflexivity..]); done.
Qed.

(** X3. An empty array is data, not absence: it empties a present
    container, where [null] leaves the container as it was. *)
Theorem empty_array_clears_container :
  ∀ w,
    (∀ e, querySelector CONFIG_selectors_team w = Some e →
       querySelector CONFIG_selectors_team (renderTeam (Some []) w)
       = Some (set_content (Html "") e))
    ∧ (∀ e, querySelector CONFIG_selectors_services w = Some e →
       querySelector CONFIG_selectors_services (renderServices (Some []) w)
       = Some (set_content (Html "") e))
    ∧ (∀ e, querySelector CONFIG_selectors_blog w = Some e →
       querySelector CONFIG_selectors_blog (renderBlog (Some []) w)
       = Some (set_content (Html "") e))
    ∧ (∀ e, querySelector CONFIG_selectors_fullBlog w = Some e →
       querySelector CONFIG_selectors_fullBlog (renderAllArticles (Some []) w)
       = Some (set_content (Html "") e)).
Proof.
  intros w. split_and!; intros e He.
  - unfold renderTeam. rewrite He. by rewrite querySelector_update, He.
  - unfold renderServices. rewrite He. by rewrite querySelector_update, He.
  - unfold renderBlog. rewrite He. by rewrite querySelector_update, He.
  - unfold renderAllArticles. rewrite He. by rewrite querySelector_update, He.
Qed.

Lemma empty_array_clears_container_witness :
  querySelector CONFIG_selectors_team
    (renderTeam (Some [])
       (renderTeam (Some sample_team) sample_world))
  = Some (set_content (Html "") (set_content
      (Html (join "" (map teamCard sample_team))) blank)).
Proof.
  apply (proj1 (empty_array_clears_container
                  (renderTeam (Some sample_team) sample_world))).
  reflexivity.
Defined.

(** ** What a computation may write *)







Lemma touches_only_fetchData {A : Type} sels url (answer : FetchOutcome A) :
  touches_only sels (fetchData url answer).
Proof.
  intros w sel _. rewrite fetchData_eq. unfold fetch_log.
  by destruct (fetch_fails answer).
Qed.



(** ** The router: what each branch leaves alone *)

Lemma init_article_eq b w :
  includes (pathname b) "article.html" = true →
  init b w = renderFullArticle b (greeted w).
Proof. intros H. unfold init. by rewrite H. Qed.

Lemma init_archive_eq b w :
  includes (pathname b) "article.html" = false →
  includes (pathname b) "blog.html" = true →
  init b w =
  (Return tt,
   renderAllArticles (fetched (fetch_blog b))
     (fetch_log CONFIG_paths_blog (fetch_blog b) (greeted w))).
Proof.
  intros Ha Hb. unfold init. rewrite Ha, Hb.
  unfold bind at 1. unfold act at 1. fold (greeted w).
  unfold bind. by rewrite fetchData_eq.
Qed.

Lemma init_landing_eq b w :
  includes (pathname b) "article.html" = false →
  includes (pathname b) "blog.html" = false →
  init b w =
  (Return tt,
   if present CONFIG_selectors_team w
   then
     renderBlog (fetched (fetch_blog b))
       (renderServices (fetched (fetch_products b))
          (renderTeam (fetched (fetch_team b)) (fetch_logs b (greeted w))))
   else greeted w).
Proof.
  intros Ha Hb. unfold init. rewrite Ha, Hb.
  unfold bind at 1. unfold act at 1. fold (greeted w).
  unfold bind at 1, present.
  change (querySelector CONFIG_selectors_team (greeted w))
    with (querySelector CONFIG_selectors_team w).
  destruct (querySelector CONFIG_selectors_team w) as [e|] eqn:Hteam.
  - rewrite bool_decide_true by eauto.
    unfold bind at 1. by rewrite Promise_all3_fetchData.
  - rewrite bool_decide_false; [done|]. by intros [? ?].
Qed.

Lemma querySelector_fetch_log {A : Type} sel url (answer : FetchOutcome A) w :
  querySelector sel (fetch_log url answer w) = querySelector sel w.
Proof. unfold fetch_log. by destruct (fetch_fails answer). Qed.

Lemma querySelector_fetch_logs sel b w :
  querySelector sel (fetch_logs b w) = querySelector sel w.
Proof.
  unfold fetch_logs. destruct (settle_order b);
    by rewrite !querySelector_fetch_log.
Qed.

Lemma querySelector_renderTeam data w s :
  querySelector s (renderTeam data w) =
  if decide (s = CONFIG_selectors_team)
  then rendered_element teamCard data <$> querySelector s w
  else querySelector s w.
Proof. apply renderer_lookup. by intros [?|] ?. Qed.

Lemma querySelector_renderServices data w s :
  querySelector s (renderServices data w) =
  if decide (s = CONFIG_selectors_services)
  then rendered_element serviceCard data <$> querySelector s w
  else querySelector s w.
Proof. apply renderer_lookup. by intros [?|] ?. Qed.

Lemma querySelector_renderBlog data w s :
  querySelector s (renderBlog data w) =
  if decide (s = CONFIG_selectors_blog)
  then rendered_element blogCard data <$> querySelector s w
  else querySelector s w.
Proof. apply renderer_lookup. by intros [?|] ?. Qed.




(** X5. On the landing page with the team container present, each
    container shows the cards of its own file and depends on no other
    fetch: a file that failed to load leaves its own container as it was
    and does not keep the other two from rendering. *)
Theorem landing_fetches_are_isolated :
  ∀ b w,
    route (pathname b) = Landing →
    present CONFIG_selectors_team w = true →
    let w' := exec (init b) w in
    querySelector CONFIG_selectors_team w'
    = rendered_element teamCard (fetched (fetch_team b))
        <$> querySelector CONFIG_selectors_team w
    ∧ querySelector CONFIG_selectors_services w'
      = rendered_element serviceCard (fetched (fetch_products b))
          <$> querySelector CONFIG_selectors_services w
    ∧ querySelector CONFIG_selectors_blog w'
      = rendered_element blogCard (fetched (fetch_blog b))
          <$> querySelector CONFIG_selectors_blog w.
Proof.
  intros b w Hr Hteam w'. subst w'. unfold exec.
  apply route_spec in Hr as [Ha Hb]. rewrite init_landing_eq by done.
  simpl. rewrite Hteam. split_and!.
  - rewrite querySelector_renderBlog, decide_False by done.
    rewrite querySelector_renderServices, decide_False by done.
    rewrite querySelector_renderTeam, decide_True by done.
    by rewrite querySelector_fetch_logs.
  - rewrite querySelector_renderBlog, decide_False by done.
    rewrite querySelector_renderServices, decide_True by done.
    rewrite querySelector_renderTeam, decide_False by done.
    by rewrite querySelector_fetch_logs.
  - rewrite querySelector_renderBlog, decide_True by done.
    rewrite querySelector_renderServices, decide_False by done.
    rewrite querySelector_renderTeam, decide_False by done.
    by rewrite querySelector_fetch_logs.
Qed.

Lemma landing_fetches_are_isolated_witness :
  let b := mkBrowser "/index.html" [] "https://example.org/" (fun s => s)
             (NetworkFailure (TypeError "offline")) (respond sample_products)
             (Responded (mkResponse 404 (JsonArray sample_posts)))
             Order321 DefaultMode in
  let w' := exec (init b) sample_world in
  querySelector CONFIG_selectors_team w' = Some blank
  ∧ querySelector CONFIG_selectors_services w'
    = Some (set_content (Html (join "" (map serviceCard sample_products))) blank)
  ∧ querySelector CONFIG_selectors_blog w' = Some blank.
Proof.
  intros b w'.
  apply (landing_fetches_are_isolated b sample_world); reflexivity.
Defined.

(** X6. [init] throws into its caller in one situation only: on the
    article page, when the id is missing (or zero, or no number) and the
    page has no title element. On the archive and the landing page, and on
    the article page with a usable id, every failure is absorbed. *)
Theorem init_throws_only_without_title :
  ∀ b w,
    threw (init b w) =
    match route (pathname b) with
    | Article =>
        falsy (parseInt (searchParams_get (search b) "id"))
        && negb (present "#article-title" w)
    | _ => false
    end.
Proof.
  intros b w. pose proof (route_spec (pathname b)) as (HA & HB & HL).
  destruct (route (pathname b)).
  - rewrite init_article_eq by by apply HA.
    unfold renderFullArticle, threw. destruct (falsy _); simpl.
    + unfold assign, present.
      change (querySelector "#article-title" (greeted w))
        with (querySelector "#article-title" w).
      by destruct (querySelector "#article-title" w) as [e|] eqn:He.
    + unfold try_catch. by destruct (bind _ _ _) as [[?|?] ?].
  - destruct HB as [HB _]. destruct HB as [Ha Hb]; [done|].
    by rewrite init_archive_eq.
  - destruct HL as [HL _]. destruct HL as [Ha Hb]; [done|].
    by rewrite init_landing_eq.
Qed.

(** ** The article page: the post that was found *)

Lemma querySelector_heroStep post w s :
  querySelector s (heroStep post w) =
  if decide (s = "#article-hero-image")
  then hero_element post <$> querySelector s w
  else querySelector s w.
Proof.
  unfold heroStep, hero_element, getElementById.
  change ("#" +:+ "article-hero-image") with "#article-hero-image".
  destruct (decide (s = "#article-hero-image")) as [->|Hne].
  - destruct (querySelector "#article-hero-image" w) as [e|] eqn:He;
      [|by rewrite He].
    destruct (truthy (post_image post)); by rewrite querySelector_update, He.
  - destruct (querySelector "#article-hero-image" w); [|done].
    destruct (truthy (post_image post)); by rewrite querySelector_update_ne.
Qed.

Lemma querySelector_with_title sel t w :
  querySelector sel (with_title t w) = querySelector sel w.
Proof. reflexivity. Qed.

Lemma heroStep_rest post w :
  documentTitle (heroStep post w) = documentTitle w
  ∧ console (heroStep post w) = console w.
Proof.
  unfold heroStep. destruct (getElementById _ w); [|done].
  by destruct (truthy (post_image post)).
Qed.

Lemma showPost_present b post w t m c :
  querySelector "#article-title" w = Some t →
  querySelector "#article-meta" w = Some m →
  querySelector "#article-content" w = Some c →
  showPost b post w =
  (Return tt,
   update "#article-content"
     (innerHTML (default "undefined" (post_content post) +:+ shareBlock b))
     (update "#article-meta" (innerHTML (articleMeta post))
        (heroStep post
           (update "#article-title" (textContent_set (post_title post))
              (with_title (post_title post +:+ " | Munificent") w))))).
Proof.
  intros Ht Hm Hc.
  change (showPost b post w) with
    (bind (act (with_title (post_title post +:+ " | Munificent")))
       (fun _ =>
          bind (assign "#article-title" (textContent_set (post_title post)))
            (fun _ =>
               bind (act (heroStep post))
                 (fun _ =>
                    bind (assign "#article-meta" (innerHTML (articleMeta post)))
                      (fun _ =>
                         assign "#article-content"
                           (innerHTML
                              (default "undefined" (post_content post)
                               +:+ shareBlock b)))))) w).
  unfold bind at 1. unfold act at 1.
  unfold bind at 1. unfold assign at 1.
  change (querySelector "#article-title" (with_title ?x w))
    with (querySelector "#article-title" w). rewrite Ht.
  unfold bind at 1. unfold act at 1.
  set (w3 := heroStep post _).
  assert (querySelector "#article-meta" w3 = Some m) as Hm3.
  { subst w3. rewrite querySelector_heroStep, decide_False by done.
    by rewrite querySelector_update_ne. }
  assert (querySelector "#article-content" w3 = Some c) as Hc3.
  { subst w3. rewrite querySelector_heroStep, decide_False by done.
    by rewrite querySelector_update_ne. }
  unfold bind, assign. rewrite Hm3. by rewrite querySelector_update_ne, Hc3.
Qed.

(** X7. When the id parses to a non-zero number, the blog data has loaded
    and a post has that id, the page shows the first such post: the
    document title and the title element carry its title, the meta line
    its date and tags, the content element its content followed by the
    share links, and the hero element (if the page has one) its image, or
    is hidden when the post has none. Nothing is logged. The numbers
    compared are safe integers. *)
Theorem renderFullArticle_shows_found_post :
  ∀ b w r data post t m c,
    falsy (parseInt (searchParams_get (search b) "id")) = false →
    safe_num (parseInt (searchParams_get (search b) "id")) = true →
    fetch_blog b = Responded r → json r = JsonArray data →
    safe_ids data = true →
    List.find
      (fun p => strictEq (post_id p) (parseInt (searchParams_get (search b) "id")))
      data = Some post →
    querySelector "#article-title" w = Some t →
    querySelector "#article-meta" w = Some m →
    querySelector "#article-content" w = Some c →
    let w' := exec (renderFullArticle b) w in
    documentTitle w' = post_title post +:+ " | Munificent"
    ∧ querySelector "#article-title" w'
      = Some (set_content (Text (post_title post)) t)
    ∧ querySelector "#article-meta" w'
      = Some (set_content (Html (articleMeta post)) m)
    ∧ querySelector "#article-content" w'
      = Some (set_content
                (Html (default "undefined" (post_content post) +:+ shareBlock b)) c)
    ∧ querySelector "#article-hero-image" w'
      = hero_element post <$> querySelector "#article-hero-image" w
    ∧ console w' = console w.
Proof.
  intros b w r data post t m c Hid _ Hr Hj _ Hfind Ht Hm Hc w'. subst w'.
  unfold exec. rewrite (renderFullArticle_lookup b w r data) by done.
  rewrite Hfind. unfold try_catch.
  rewrite (showPost_present b post w t m c) by done. simpl. split_and!.
  - by rewrite (proj1 (heroStep_rest post _)).
  - rewrite !querySelector_update_ne by done.
    rewrite querySelector_heroStep, decide_False by done.
    by rewrite querySelector_update, querySelector_with_title, Ht.
  - rewrite querySelector_update_ne, querySelector_update by done.
    rewrite querySelector_heroStep, decide_False by done.
    by rewrite querySelector_update_ne, querySelector_with_title, Hm.
  - rewrite querySelector_update, querySelector_update_ne by done.
    rewrite querySelector_heroStep, decide_False by done.
    by rewrite querySelector_update_ne, querySelector_with_title, Hc.
  - rewrite !querySelector_update_ne by done.
    rewrite querySelector_heroStep, decide_True by done.
    by rewrite querySelector_update_ne.
  - by rewrite (proj2 (heroStep_rest post _)).
Qed.

Lemma renderFullArticle_shows_found_post_witness :
  let b := sample_browser "/article.html" [("id", "1")] in
  let post := mkBlogPost (VNum 1) "2024-01-02" ["a"; "b"; "c"] "One" "e1"
                "article.html?id=1" (Some "<p>one</p>") (Some "one.png") in
  let w' := exec (renderFullArticle b) sample_article_world in
  documentTitle w' = "One | Munificent"
  ∧ content <$> querySelector "#article-title" w' = Some (Text "One")
  ∧ querySelector "#article-hero-image" w'
    = Some (set_content (Html (heroImage "one.png" post)) blank).
Proof.
  intros b post w'.
  destruct (renderFullArticle_shows_found_post b sample_article_world
    (mkResponse 200 (JsonArray sample_posts)) sample_posts post
    (mkElement (Text "...") "" [] false "" "") blank
    (mkElement (Html "<p>loading</p>") "" [] false "" "")
    eq_refl eq_refl eq_refl eq_refl eq_refl eq_refl eq_refl eq_refl eq_refl)
    as (H1 & H2 & _ & _ & H5 & _).
  split_and!.
  - exact H1.
  - exact (f_equal (fmap content) H2).
  - exact H5.
Defined.

(** X8. When the id is usable but the blog file does not load as an array
    (the fetch fails, the body is not JSON, or it is [null]), the article
    page stays exactly as it was: the only effect is one error entry in
    the console, and nothing is thrown. *)
Theorem renderFullArticle_load_failure_only_logs :
  ∀ b w,
    falsy (parseInt (searchParams_get (search b) "id")) = false →
    load_fails b = true →
    ∃ err,
      renderFullArticle b w
      = (Return tt, console_error "Failed to load article:" err w).
Proof.
  intros b w Hid Hload. unfold renderFullArticle. rewrite Hid.
  unfold load_fails in Hload. unfold try_catch, bind, await_fetch, await_json.
  destruct (fetch_blog b) as [reason|r]; simpl; [by eexists|].
  destruct (json r) as [reason| |a]; simpl; [by eexists..|done].
Qed.

Lemma renderFullArticle_load_failure_only_logs_witness :
  ∃ err,
    renderFullArticle
      (with_blog (NetworkFailure (TypeError "offline"))
         (sample_browser "/article.html" [("id", "1")])) sample_world
    = (Return tt, console_error "Failed to load article:" err sample_world).
Proof.
  apply renderFullArticle_load_failure_only_logs; reflexivity.
Defined.

(** ** The article page and the HTTP status *)

Lemma shareBlock_with_blog answer b :
  shareBlock (with_blog answer b) = shareBlock b.
Proof. unfold shareBlock, with_blog, href. reflexivity. Qed.

Lemma showPost_with_blog answer b post :
  showPost (with_blog answer b) post = showPost b post.
Proof. unfold showPost. by rewrite shareBlock_with_blog. Qed.

Lemma articleCallback_with_blog answer b id data :
  articleCallback (with_blog answer b) id data = articleCallback b id data.
Proof.
  unfold articleCallback. destruct data as [data|]; [|reflexivity].
  destruct (List.find _ data); [apply showPost_with_blog | reflexivity].
Qed.

(** X9. The article page never looks at the HTTP status: an answer is
    used for its body alone, so an error answer with a JSON body is
    rendered like a success. The data loader does look: for the same
    answer with a non-success status it returns [null]. *)
Theorem renderFullArticle_ignores_status :
  ∀ b w st st' body,
    renderFullArticle (with_blog (Responded (mkResponse st body)) b) w
    = renderFullArticle (with_blog (Responded (mkResponse st' body)) b) w
    ∧ (ok (mkResponse st body) = false →
       (fetchData CONFIG_paths_blog (Responded (mkResponse st body)) w).1
       = Return None).
Proof.
  intros b w st st' body. split.
  - unfold renderFullArticle.
    change (search (with_blog _ b)) with (search b).
    destruct (falsy _); [reflexivity|].
    unfold try_catch, bind, await_fetch, await_json.
    change (fetch_blog (with_blog ?a b)) with a. cbv beta iota.
    destruct body as [reason| |data]; unfold ret, throw, json;
      cbv beta iota; [reflexivity..|].
    rewrite !articleCallback_with_blog. reflexivity.
  - intros Hok. rewrite fetchData_eq. unfold fetched. by rewrite Hok.
Qed.

Lemma renderFullArticle_ignores_status_witness :
  (fetchData CONFIG_paths_blog
     (Responded (mkResponse 404 (JsonArray sample_posts))) sample_world).1
  = Return None.
Proof.
  apply (proj2 (renderFullArticle_ignores_status
    (sample_browser "/article.html" [("id", "1")]) sample_world 404 200
    (JsonArray sample_posts))).
  reflexivity.
Defined.

Example article_rendered_from_404_answer :
  content <$> querySelector "#article-title"
    (exec (renderFullArticle
             (with_blog (Responded (mkResponse 404 (JsonArray sample_posts)))
                (sample_browser "/article.html" [("id", "1")]))) sample_world)
  = Some (Text "One").
Proof. vm_compute. reflexivity. Qed.

(** ** Reading a number back from its decimal form *)

Lemma digitValue_pretty_N_char m :
  (m < 10)%N → digitValue 10 (pretty_N_char m) = Some (Z.of_N m).
Proof.
  intros Hm.
  assert (m = 0 ∨ m = 1 ∨ m = 2 ∨ m = 3 ∨ m = 4 ∨ m = 5 ∨ m = 6 ∨ m = 7
          ∨ m = 8 ∨ m = 9)%N as Hcases by lia.
  repeat (destruct Hcases as [-> | Hcases]; [reflexivity|]). by subst.
Qed.

Lemma parseDigits_pretty_N_go x s :
  parseDigits 10 (pretty_N_go x s) None =
  parseDigits 10 s (if decide (x = 0%N) then None else Some (Z.of_N x)).
Proof.
  revert s. induction (N.lt_wf_0 x) as [x _ IH]. intros s.
  destruct (decide (x = 0%N)) as [->|Hx]; [by rewrite pretty_N_go_0|].
  rewrite pretty_N_go_step by lia.
  rewrite IH by (apply N.div_lt; lia).
  change (parseDigits 10 (String ?c s) ?acc) with
    (match digitValue 10 c with
     | Some d => parseDigits 10 s (Some (default 0%Z acc * 10 + d)%Z)
     | None => acc
     end).
  rewrite digitValue_pretty_N_char by (apply N.mod_lt; lia).
  f_equal. f_equal.
  pose proof (N.div_mod x 10 ltac:(lia)) as Hdm.
  destruct (decide ((x `div` 10)%N = 0%N)) as [H0|H0]; simpl; lia.
Qed.

Lemma pretty_N_go_head x s :
  (0 < x)%N →
  ∃ m r, (0 < m < 10)%N ∧ pretty_N_go x s = String (pretty_N_char m) r.
Proof.
  revert s. induction (N.lt_wf_0 x) as [x _ IH]. intros s Hx.
  rewrite pretty_N_go_step by done.
  destruct (decide ((x `div` 10)%N = 0%N)) as [H0|H0].
  - rewrite H0, pretty_N_go_0. exists (x `mod` 10)%N, s. split; [|done].
    pose proof (N.div_mod x 10 ltac:(lia)).
    pose proof (N.mod_lt x 10 ltac:(lia)). lia.
  - apply IH; [apply N.div_lt; lia | by apply N.neq_0_lt_0].
Qed.

Lemma trimStart_digit m r :
  (0 < m < 10)%N →
  trimStart (String (pretty_N_char m) r) = String (pretty_N_char m) r.
Proof.
  intros Hm.
  assert (m = 1 ∨ m = 2 ∨ m = 3 ∨ m = 4 ∨ m = 5 ∨ m = 6 ∨ m = 7 ∨ m = 8
          ∨ m = 9)%N as Hcases by lia.
  destruct r as [|c2 [|c3 r3]];
    repeat (destruct Hcases as [-> | Hcases]; [reflexivity|]); by subst.
Qed.

Lemma trimStart_minus r : trimStart (String "-" r) = String "-" r.
Proof. by destruct r as [|c2 [|c3 r3]]. Qed.

(** The digits of a positive number, with an optional minus sign before
    them, parse to that number. *)
Lemma parseInt_pretty_N_go x :
  (0 < x)%N →
  parseInt (Some (pretty_N_go x "")) = Num (Z.of_N x)
  ∧ parseInt (Some (String "-" (pretty_N_go x ""))) = Num (- Z.of_N x).
Proof.
  intros Hx. pose proof (parseDigits_pretty_N_go x "") as Hdigits.
  rewrite decide_False in Hdigits by lia.
  destruct (pretty_N_go_head x "" Hx) as (m & r & Hm & Heq).
  unfold parseInt.
  change (default "null" (Some ?s)) with s.
  rewrite trimStart_minus. rewrite Heq in *. rewrite trimStart_digit by done.
  assert (m = 1 ∨ m = 2 ∨ m = 3 ∨ m = 4 ∨ m = 5 ∨ m = 6 ∨ m = 7 ∨ m = 8
          ∨ m = 9)%N as Hcases by lia.
  repeat (destruct Hcases as [-> | Hcases];
          [cbv beta iota delta [pretty_N_char] in *; rewrite Hdigits;
           split; f_equal; simpl; lia|]).
  subst m. cbv beta iota delta [pretty_N_char] in *. rewrite Hdigits.
  split; f_equal; simpl; lia.
Qed.

(** [parseInt] reads every integer back from its decimal form. *)
Lemma parseInt_pretty (z : Z) : parseInt (Some (pretty z)) = Num z.
Proof.
  destruct z as [|p|p]; [reflexivity| |].
  - change (pretty (Z.pos p)) with (pretty_N_go (N.pos p) "").
    by rewrite (proj1 (parseInt_pretty_N_go (N.pos p) eq_refl)).
  - change (pretty (Z.neg p)) with (String "-" (pretty_N_go (N.pos p) "")).
    by rewrite (proj2 (parseInt_pretty_N_go (N.pos p) eq_refl)).
Qed.

(** X10. A link that carries the decimal form of a non-zero safe integer
    as its id opens the post with that number: [parseInt] reads the number
    back, and the title element shows the title of the first post whose id
    is that number (the ids of the data being safe integers too). *)
Theorem article_link_opens_its_post :
  ∀ b w r data post n t m c,
    n ≠ 0%Z → isSafeInteger n = true →
    searchParams_get (search b) "id" = Some (pretty n) →
    fetch_blog b = Responded r → json r = JsonArray data →
    safe_ids data = true →
    List.find (fun p => strictEq (post_id p) (Num n)) data = Some post →
    querySelector "#article-title" w = Some t →
    querySelector "#article-meta" w = Some m →
    querySelector "#article-content" w = Some c →
    parseInt (searchParams_get (search b) "id") = Num n
    ∧ post_id post = VNum n
    ∧ querySelector "#article-title" (exec (renderFullArticle b) w)
      = Some (set_content (Text (post_title post)) t).
Proof.
  intros b w r data post n t m c Hn _ Hget Hr Hj _ Hfind Ht Hm Hc.
  assert (parseInt (searchParams_get (search b) "id") = Num n) as Hparse.
  { by rewrite Hget, parseInt_pretty. }
  split; [done|]. split.
  { apply find_some in Hfind as [_ Heq]. by apply strictEq_true. }
  unfold exec. rewrite (renderFullArticle_lookup b w r data); [| |done..].
  - rewrite Hparse, Hfind. unfold try_catch.
    rewrite (showPost_present b post w t m c) by done.
    cbv beta iota delta [snd].
    rewrite !querySelector_update_ne by done.
    rewrite querySelector_heroStep, decide_False by done.
    by rewrite querySelector_update, querySelector_with_title, Ht.
  - rewrite Hparse. unfold falsy. by apply Z.eqb_neq.
Qed.

Lemma article_link_opens_its_post_witness :
  querySelector "#article-title"
    (exec (renderFullArticle (sample_browser "/article.html" [("id", pretty 1%Z)]))
       sample_world)
  = Some (set_content (Text "One") (mkElement (Text "...") "" [] false "" "")).
Proof.
  apply (proj2 (proj2 (article_link_opens_its_post
    (sample_browser "/article.html" [("id", pretty 1%Z)]) sample_world
    (mkResponse 200 (JsonArray sample_posts)) sample_posts
    (mkBlogPost (VNum 1) "2024-01-02" ["a"; "b"; "c"] "One" "e1"
       "article.html?id=1" (Some "<p>one</p>") (Some "one.png"))
    1%Z (mkElement (Text "...") "" [] false "" "") blank
    (mkElement (Html "<p>loading</p>") "" [] false "" "")
    ltac:(done) eq_refl eq_refl eq_refl eq_refl eq_refl eq_refl eq_refl eq_refl
    eq_refl))).
Defined.

(** ** The mobile menu: one click, and a click on a link *)

Lemma classList_contains_toggle l c x :
  classList_contains (classList_toggle l c) x =
  if decide (x = c) then negb (classList_contains l c) else classList_contains l x.
Proof.
  unfold classList_toggle. destruct (classList_contains l c) eqn:Hc.
  - destruct (decide (x = c)) as [->|Hne]; simpl.
    + apply bool_decide_eq_false. rewrite elem_of_classList_remove. tauto.
    + apply bool_decide_ext. rewrite elem_of_classList_remove. tauto.
  - destruct (decide (x = c)) as [->|Hne]; simpl.
    + apply bool_decide_eq_true. rewrite elem_of_classList_add. tauto.
    + apply bool_decide_ext. rewrite elem_of_classList_add. tauto.
Qed.

Lemma classList_contains_remove l c x :
  classList_contains (classList_remove l c) x =
  if decide (x = c) then false else classList_contains l x.
Proof.
  destruct (decide (x = c)) as [->|Hne].
  - apply bool_decide_eq_false. rewrite elem_of_classList_remove. tauto.
  - apply bool_decide_ext. rewrite elem_of_classList_remove. tauto.
Qed.

Lemma setupMobileMenu_wired_present w nav tog :
  querySelector ".nav-links" w = Some nav →
  querySelector ".menu-toggle" w = Some tog →
  setupMobileMenu_wired w = true.
Proof.
  intros Hn Ht. unfold setupMobileMenu_wired, present. rewrite Hn, Ht.
  rewrite !bool_decide_true by eauto. reflexivity.
Qed.

(** X11. One click on the menu toggle flips the [active] class of the
    navigation panel and the [open] class of the toggle, and leaves every
    other class of both elements as it is. *)
Theorem menu_click_flips_both_classes :
  ∀ b w nav tog,
    querySelector ".nav-links" w = Some nav →
    querySelector ".menu-toggle" w = Some tog →
    let w' := dispatch b ClickMenuToggle w in
    ∃ nav' tog',
      querySelector ".nav-links" w' = Some (set_classList (fun _ => nav') nav)
      ∧ querySelector ".menu-toggle" w' = Some (set_classList (fun _ => tog') tog)
      ∧ (∀ c, classList_contains nav' c =
              if decide (c = "active")
              then negb (classList_contains (classList nav) "active")
              else classList_contains (classList nav) c)
      ∧ (∀ c, classList_contains tog' c =
              if decide (c = "open")
              then negb (classList_contains (classList tog) "open")
              else classList_contains (classList tog) c).
Proof.
  intros b w nav tog Hn Ht w'. subst w'. unfold dispatch.
  rewrite (setupMobileMenu_wired_present w nav tog) by done.
  exists (classList_toggle (classList nav) "active"),
    (classList_toggle (classList tog) "open").
  unfold menuToggle_click. split_and!.
  - by rewrite querySelector_update_ne, querySelector_update, Hn.
  - by rewrite querySelector_update, querySelector_update_ne, Ht.
  - intros c. apply classList_contains_toggle.
  - intros c. apply classList_contains_toggle.
Qed.

Lemma menu_click_flips_both_classes_witness :
  ∃ nav' tog',
    querySelector ".nav-links"
      (dispatch (sample_browser "/" []) ClickMenuToggle sample_world)
    = Some (set_classList (fun _ => nav') sample_nav)
    ∧ querySelector ".menu-toggle"
        (dispatch (sample_browser "/" []) ClickMenuToggle sample_world)
      = Some (set_classList (fun _ => tog') blank)
    ∧ (∀ c, classList_contains nav' c =
            if decide (c = "active")
            then negb (classList_contains (classList sample_nav) "active")
            else classList_contains (classList sample_nav) c)
    ∧ (∀ c, classList_contains tog' c =
            if decide (c = "open")
            then negb (classList_contains (classList blank) "open")
            else classList_contains (classList blank) c).
Proof.
  apply (menu_click_flips_both_classes (sample_browser "/" []) sample_world
           sample_nav blank); reflexivity.
Defined.

(** X12. A click on a navigation link closes the menu whatever state it
    was in: afterwards the panel is not [active] and the toggle is not
    [open], and every other class of both elements is as before. *)
Theorem nav_link_click_closes_menu :
  ∀ b w nav tog,
    querySelector ".nav-links" w = Some nav →
    querySelector ".menu-toggle" w = Some tog →
    let w' := dispatch b ClickNavLink w in
    ∃ nav' tog',
      querySelector ".nav-links" w' = Some (set_classList (fun _ => nav') nav)
      ∧ querySelector ".menu-toggle" w' = Some (set_classList (fun _ => tog') tog)
      ∧ (∀ c, classList_contains nav' c =
              if decide (c = "active") then false
              else classList_contains (classList nav) c)
      ∧ (∀ c, classList_contains tog' c =
              if decide (c = "open") then false
              else classList_contains (classList tog) c).
Proof.
  intros b w nav tog Hn Ht w'. subst w'. unfold dispatch.
  rewrite (setupMobileMenu_wired_present w nav tog) by done.
  exists (classList_remove (classList nav) "active"),
    (classList_remove (classList tog) "open").
  unfold navLink_click. split_and!.
  - by rewrite querySelector_update_ne, querySelector_update, Hn.
  - by rewrite querySelector_update, querySelector_update_ne, Ht.
  - intros c. apply classList_contains_remove.
  - intros c. apply classList_contains_remove.
Qed.

Lemma nav_link_click_closes_menu_witness :
  ∃ nav' tog',
    querySelector ".nav-links"
      (dispatch (sample_browser "/" []) ClickNavLink sample_world)
    = Some (set_classList (fun _ => nav') sample_nav)
    ∧ querySelector ".menu-toggle"
        (dispatch (sample_browser "/" []) ClickNavLink sample_world)
      = Some (set_classList (fun _ => tog') blank)
    ∧ (∀ c, classList_contains nav' c =
            if decide (c = "active") then false
            else classList_contains (classList sample_nav) c)
    ∧ (∀ c, classList_contains tog' c =
            if decide (c = "open") then false
            else classList_contains (classList blank) c).
Proof.
  apply (nav_link_click_closes_menu (sample_browser "/" []) sample_world
           sample_nav blank); reflexivity.
Defined.

(** ** The modal: opening and closing, step by step *)

Lemma querySelector_with_clock sel n l w :
  querySelector sel (with_clock n l w) = querySelector sel w.
Proof. reflexivity. Qed.

(** X13. A click on the open button shows the modal at once
    ([display: block]) and adds the open class 10 ms later, not before:
    until then the class list is untouched. *)
Theorem modal_opens_in_two_steps :
  ∀ b w e d,
    setupModal_wired w = true →
    querySelector "#modal" w = Some e →
    timers w = [] →
    let w' := advance d (dispatch b ClickOpenBtn w) in
    (d < 10 → querySelector "#modal" w' = Some (set_display "block" e))
    ∧ (10 ≤ d →
       querySelector "#modal" w'
       = Some (set_classList (fun l => classList_add l "modal--open")
                 (set_display "block" e))
       ∧ timers w' = []).
Proof.
  intros b w e d Hw He Ht w'. subst w'. unfold dispatch. rewrite Hw.
  assert (timers (openBtn_click w) = [(now w + 10, AddOpenClass)]) as Htm.
  { unfold openBtn_click, setTimeout. simpl. by rewrite Ht. }
  split.
  - intros Hd.
    rewrite (advance_before d (openBtn_click w) (now w + 10) AddOpenClass);
      [|done|simpl; lia].
    rewrite querySelector_with_clock. unfold openBtn_click, setTimeout.
    rewrite querySelector_with_clock. by rewrite querySelector_update, He.
  - intros Hd.
    rewrite (advance_fire d (openBtn_click w) (now w + 10) AddOpenClass);
      [|done|simpl; lia..].
    split; [|reflexivity].
    rewrite querySelector_with_clock. unfold runTask.
    rewrite querySelector_update. unfold openBtn_click, setTimeout.
    rewrite querySelector_with_clock. by rewrite querySelector_update, He.
Qed.

Lemma modal_opens_in_two_steps_witness :
  let b := sample_browser "/" [] in
  querySelector "#modal" (advance 9 (dispatch b ClickOpenBtn sample_world))
  = Some (set_display "block" sample_modal)
  ∧ querySelector "#modal" (advance 10 (dispatch b ClickOpenBtn sample_world))
    = Some (set_classList (fun l => classList_add l "modal--open")
              (set_display "block" sample_modal)).
Proof.
  intros b. split.
  - apply (proj1 (modal_opens_in_two_steps b sample_world sample_modal 9
                    eq_refl eq_refl eq_refl)). lia.
  - apply (proj2 (modal_opens_in_two_steps b sample_world sample_modal 10
                    eq_refl eq_refl eq_refl)). lia.
Defined.

(** X14. A close action removes the open class at once and hides the
    modal ([display: none]) 300 ms later, not before: until then the
    display is what it was. *)
Theorem modal_closes_in_two_steps :
  ∀ b w e close d,
    setupModal_wired w = true →
    querySelector "#modal" w = Some e →
    timers w = [] →
    close = ClickCloseBtn ∨ close = ClickWindow true →
    let w' := advance d (dispatch b close w) in
    (d < 300 →
     querySelector "#modal" w'
     = Some (set_classList (fun l => classList_remove l "modal--open") e))
    ∧ (300 ≤ d →
       querySelector "#modal" w'
       = Some (set_display "none"
                 (set_classList (fun l => classList_remove l "modal--open") e))
       ∧ timers w' = []).
Proof.
  intros b w e close d Hw He Ht Hclose w'. subst w'.
  rewrite (dispatch_close b close) by done. rewrite Hw.
  assert (timers (closeModal w) = [(now w + 300, HideModal)]) as Htm.
  { unfold closeModal, setTimeout. simpl. by rewrite Ht. }
  split.
  - intros Hd.
    rewrite (advance_before d (closeModal w) (now w + 300) HideModal);
      [|done|simpl; lia].
    rewrite querySelector_with_clock. unfold closeModal, setTimeout.
    rewrite querySelector_with_clock. by rewrite querySelector_update, He.
  - intros Hd.
    rewrite (advance_fire d (closeModal w) (now w + 300) HideModal);
      [|done|simpl; lia..].
    split; [|reflexivity].
    rewrite querySelector_with_clock. unfold runTask.
    rewrite querySelector_update. unfold closeModal, setTimeout.
    rewrite querySelector_with_clock. by rewrite querySelector_update, He.
Qed.

Lemma modal_closes_in_two_steps_witness :
  let b := sample_browser "/" [] in
  querySelector "#modal" (advance 299 (dispatch b (ClickWindow true) sample_world))
  = Some (set_classList (fun l => classList_remove l "modal--open") sample_modal).
Proof.
  intros b.
  apply (proj1 (modal_closes_in_two_steps b sample_world sample_modal
                  (ClickWindow true) 299 eq_refl eq_refl eq_refl
                  (or_intror eq_refl))). lia.
Defined.

(** ** The contact form: submission and settlement *)

Lemma contactNumberInput_ne_submitBtn : contactNumberInput ≠ submitBtn.
Proof. intros H. vm_compute in H. discriminate H. Qed.

Lemma modal_ne_submitBtn : "#modal" ≠ submitBtn.
Proof. intros H. vm_compute in H. discriminate H. Qed.

Lemma modal_ne_contactNumberInput : "#modal" ≠ contactNumberInput.
Proof. intros H. vm_compute in H. discriminate H. Qed.

Lemma querySelector_with_sendForm sel w :
  querySelector sel (with_sendForm w) = querySelector sel w.
Proof. reflexivity. Qed.

(** X15. A submission with the button and the number field in the form
    stamps the field with the decimal form of the random number (an
    integer from 0 to 99999), which reads back as that number: the field's
    value becomes that text, and with it the default value when the field
    is one of default mode (a hidden field), while a field of value mode
    keeps its default value. The widget is called exactly once, and the
    button's label of the moment is handed to the callbacks. *)
Theorem form_submit_stamps_and_sends :
  ∀ b rnd w btn inp,
    (0 ≤ rnd < 100000)%Z →
    querySelector submitBtn w = Some btn →
    querySelector contactNumberInput w = Some inp →
    ∃ w' inp',
      form_submit b rnd w = (Return (textContent b btn), w')
      ∧ querySelector contactNumberInput w' = Some inp'
      ∧ inp' = assign_value (contact_number_mode b) (pretty rnd) inp
      ∧ value inp' = pretty rnd
      ∧ defaultValue inp'
        = match contact_number_mode b with
          | ValueMode => defaultValue inp
          | DefaultMode => pretty rnd
          end
      ∧ parseInt (Some (value inp')) = Num rnd
      ∧ sendFormCalls w' = S (sendFormCalls w)
      ∧ alerts w' = alerts w ∧ timers w' = timers w.
Proof.
  intros b rnd w btn inp _ Hbtn Hinp.
  eexists _, (assign_value (contact_number_mode b) (pretty rnd) inp). split.
  - unfold form_submit, bind, act, ret. rewrite Hinp.
    rewrite querySelector_update_ne by apply contactNumberInput_ne_submitBtn.
    rewrite Hbtn. reflexivity.
  - assert (value (assign_value (contact_number_mode b) (pretty rnd) inp)
            = pretty rnd) as Hval by by destruct (contact_number_mode b).
    split_and!; try reflexivity.
    + rewrite querySelector_with_sendForm.
      rewrite !querySelector_update_ne
        by (intros H; symmetry in H;
            by apply contactNumberInput_ne_submitBtn in H).
      by rewrite querySelector_update, Hinp.
    + exact Hval.
    + by destruct (contact_number_mode b).
    + rewrite Hval. apply parseInt_pretty.
Qed.

Lemma form_submit_stamps_and_sends_witness :
  ∃ w' inp',
    form_submit (sample_browser "/" []) 4711 sample_world = (Return "Send", w')
    ∧ querySelector contactNumberInput w' = Some inp'
    ∧ inp' = assign_value DefaultMode "4711" blank
    ∧ value inp' = "4711"
    ∧ defaultValue inp' = "4711"
    ∧ parseInt (Some (value inp')) = Num 4711
    ∧ sendFormCalls w' = 1
    ∧ alerts w' = [] ∧ timers w' = [].
Proof.
  apply (form_submit_stamps_and_sends (sample_browser "/" []) 4711 sample_world
           sample_button blank); (reflexivity || lia).
Defined.

(** X16. A form without a submit button: the listener throws a TypeError
    when it reads the label, after it has stamped the number field (if the
    form has one) and before it calls the widget. The widget is never
    called and nothing is shown to the user. *)
Theorem form_submit_without_button_throws :
  ∀ b rnd w,
    (0 ≤ rnd < 100000)%Z →
    querySelector submitBtn w = None →
    ∃ msg w',
      form_submit b rnd w = (Throw (TypeError msg), w')
      ∧ sendFormCalls w' = sendFormCalls w
      ∧ alerts w' = alerts w
      ∧ querySelector contactNumberInput w'
        = assign_value (contact_number_mode b) (pretty rnd)
            <$> querySelector contactNumberInput w.
Proof.
  intros b rnd w _ Hbtn. unfold form_submit, bind, act, ret, throw.
  destruct (querySelector contactNumberInput w) as [inp|] eqn:Hinp.
  - rewrite querySelector_update_ne by apply contactNumberInput_ne_submitBtn.
    rewrite Hbtn. eexists _, _. split; [reflexivity|].
    split_and!; try reflexivity. by rewrite querySelector_update, Hinp.
  - rewrite Hbtn. eexists _, _. split; [reflexivity|].
    split_and!; try reflexivity. by rewrite Hinp.
Qed.

Lemma form_submit_without_button_throws_witness :
  ∃ msg w',
    form_submit (sample_browser "/" []) 4711 sample_world_no_submit
    = (Throw (TypeError msg), w')
    ∧ sendFormCalls w' = sendFormCalls sample_world_no_submit
    ∧ alerts w' = alerts sample_world_no_submit
    ∧ querySelector contactNumberInput w'
      = assign_value DefaultMode (pretty 4711%Z)
          <$> querySelector contactNumberInput sample_world_no_submit.
Proof.
  apply (form_submit_without_button_throws (sample_browser "/" []) 4711
           sample_world_no_submit); [lia | reflexivity].
Defined.

(** X17. When the widget resolves, the user gets the success alert, the
    modal loses the open class and is hidden 300 ms later, and the form is
    reset: the stamped number field goes back to its default value. *)
Theorem resolved_submission_closes_and_resets :
  ∀ label w d,
    timers w = [] → 300 ≤ d →
    let w' := sendForm_settled Resolved label w in
    alerts w' = alerts w ++ ["Сообщение отправлено! Мы скоро свяжемся с вами."]
    ∧ console w' = console w ++ [ConsoleLog "SUCCESS!" None]
    ∧ querySelector contactNumberInput w'
      = (fun e => set_value (defaultValue e) e)
          <$> querySelector contactNumberInput w
    ∧ querySelector "#modal" w'
      = set_classList (fun l => classList_remove l "modal--open")
          <$> querySelector "#modal" w
    ∧ querySelector "#modal" (advance d w')
      = (fun e => set_display "none"
                    (set_classList (fun l => classList_remove l "modal--open") e))
          <$> querySelector "#modal" w.
Proof.
  intros label w d Ht Hd w'. subst w'. unfold sendForm_settled.
  set (w1 := form_reset _).
  assert (querySelector "#modal" w1
          = set_classList (fun l => classList_remove l "modal--open")
              <$> querySelector "#modal" w) as Hmodal.
  { subst w1. unfold form_reset.
    rewrite querySelector_update_ne
      by (intros H; symmetry in H; by apply modal_ne_contactNumberInput in H).
    unfold closeModal, setTimeout. rewrite querySelector_with_clock.
    by rewrite querySelector_update. }
  split_and!; try reflexivity.
  - rewrite !querySelector_update_ne
      by (intros H; symmetry in H; by apply contactNumberInput_ne_submitBtn in H).
    subst w1. unfold form_reset. rewrite querySelector_update.
    unfold closeModal, setTimeout. rewrite querySelector_with_clock.
    by rewrite querySelector_update_ne by apply modal_ne_contactNumberInput.
  - rewrite !querySelector_update_ne
      by (intros H; symmetry in H; by apply modal_ne_submitBtn in H).
    exact Hmodal.
  - set (w2 := update submitBtn _ _).
    assert (timers w2 = [(now w2 + 300, HideModal)]) as Htm.
    { subst w2 w1. unfold form_reset, closeModal, setTimeout. simpl.
      by rewrite Ht. }
    rewrite (advance_fire d w2 (now w2 + 300) HideModal) by (done || lia).
    rewrite querySelector_with_clock. unfold runTask.
    rewrite querySelector_update. subst w2.
    rewrite !querySelector_update_ne
      by (intros H; symmetry in H; by apply modal_ne_submitBtn in H).
    rewrite Hmodal. by destruct (querySelector "#modal" w).
Qed.

Lemma resolved_submission_closes_and_resets_witness :
  querySelector "#modal" (advance 300 (sendForm_settled Resolved "Send" sample_world))
  = (fun e => set_display "none"
                (set_classList (fun l => classList_remove l "modal--open") e))
      <$> querySelector "#modal" sample_world.
Proof.
  apply (resolved_submission_closes_and_resets "Send" sample_world 300 eq_refl).
  lia.
Defined.

(** X18. When the widget rejects, the user gets the failure alert and
    nothing else happens besides the restoring of the button: the modal
    stays as it is, no timeout is set, and the form keeps what was typed
    into it. *)
Theorem rejected_submission_keeps_modal_and_form :
  ∀ err label w,
    let w' := sendForm_settled (Rejected err) label w in
    alerts w' = alerts w ++ ["Ошибка отправки. Пожалуйста, попробуйте позже."]
    ∧ console w' = console w ++ [ConsoleLog "FAILED..." (Some err)]
    ∧ timers w' = timers w
    ∧ ∀ sel, sel ≠ submitBtn → querySelector sel w' = querySelector sel w.
Proof.
  intros err label w w'. subst w'. unfold sendForm_settled.
  split_and!; try reflexivity.
  intros sel Hsel. by rewrite !querySelector_update_ne.
Qed.

Lemma rejected_submission_keeps_modal_and_form_witness :
  querySelector "#modal"
    (sendForm_settled (Rejected (Error "quota")) "Send" sample_world)
  = querySelector "#modal" sample_world.
Proof.
  apply (proj2 (proj2 (proj2 (rejected_submission_keeps_modal_and_form
    (Error "quota") "Send" sample_world)))).
  apply modal_ne_submitBtn.
Defined.

(** ** Cards carry their fields as they are *)

Lemma includes_here p r : includes (p +:+ r) p = true.
Proof. apply includes_spec. by exists "", r. Qed.

Lemma includes_app_r t u p : includes u p = true → includes (t +:+ u) p = true.
Proof.
  rewrite !includes_spec. intros (a & r & ->).
  exists (t +:+ a), r. by rewrite append_assoc.
Qed.

Lemma includes_join_elem (f : string → string) (l : list string) (x : string) :
  x ∈ l → includes (join "" (map f l)) (f x) = true.
Proof.
  intros Hx. apply list_elem_of_split in Hx as (l1 & l2 & ->).
  rewrite map_app, join_app. apply includes_app_r.
  change (x :: l2) with ([x] ++ l2). rewrite map_app, join_app.
  apply includes_here.
Qed.

Lemma includes_app_l t u p : includes t p = true → includes (t +:+ u) p = true.
Proof.
  rewrite !includes_spec. intros (a & r & ->).
  exists a, (r +:+ u). by rewrite !append_assoc.
Qed.

Ltac find_list :=
  lazymatch goal with
  | |- includes (join _ _ +:+ _) _ = true => apply includes_app_l
  | |- includes (_ +:+ _) _ = true => apply includes_app_r; find_list
  end.

Ltac find_field :=
  lazymatch goal with
  | |- includes (?f +:+ _) ?f = true => apply includes_here
  | |- includes (_ +:+ ?u) _ = true => apply includes_app_r; find_field
  end.

(** X19. No renderer escapes what it interpolates: every text field of a
    record occurs in its card exactly as it is in the data, markup
    included. *)
Theorem cards_interpolate_fields_verbatim :
  (∀ member,
     includes (teamCard member) (member_photo member) = true
     ∧ includes (teamCard member) (member_name member) = true
     ∧ includes (teamCard member) (member_role member) = true
     ∧ includes (teamCard member) (member_bio member) = true)
  ∧ (∀ product,
     includes (serviceCard product) (product_title product) = true
     ∧ includes (serviceCard product) (product_price product) = true)
  ∧ (∀ post,
     includes (blogCard post) (post_date post) = true
     ∧ includes (blogCard post) (post_title post) = true
     ∧ includes (blogCard post) (post_excerpt post) = true
     ∧ includes (blogCard post) (post_link post) = true)
  ∧ (∀ post,
     includes (archiveCard post) (post_date post) = true
     ∧ includes (archiveCard post) (post_title post) = true
     ∧ includes (archiveCard post) (post_excerpt post) = true
     ∧ includes (archiveCard post) (post_link post) = true).
Proof.
  split_and!; intros r; split_and!.
  all: unfold teamCard, serviceCard, blogCard, archiveCard; find_field.
Qed.

(** X20. Every subject of a member, every feature of a product and every
    tag of a post in the archive has its own markup in the card; on the
    landing page this holds for the first two tags of a post. *)
Theorem cards_list_every_item :
  (∀ member subject, subject ∈ member_subjects member →
     includes (teamCard member) (subjectTag subject) = true)
  ∧ (∀ product feature, feature ∈ product_features product →
     includes (serviceCard product) (featureItem feature) = true)
  ∧ (∀ post tag, tag ∈ post_tags post →
     includes (archiveCard post) (tagSpan tag) = true)
  ∧ (∀ post tag, tag ∈ firstn 2 (post_tags post) →
     includes (blogCard post) (tagSpan tag) = true).
Proof.
  split_and!.
  - intros member subject Hin. unfold teamCard. find_list.
    by apply includes_join_elem.
  - intros product feature Hin. unfold serviceCard. find_list.
    by apply includes_join_elem.
  - intros post tag Hin. unfold archiveCard, archiveTags. find_list.
    by apply includes_join_elem.
  - intros post tag Hin. unfold blogCard, previewTags. rewrite slice_0.
    find_list. by apply includes_join_elem.
Qed.

Lemma cards_list_every_item_witness :
  includes
    (archiveCard (mkBlogPost (VNum 1) "2024-01-02" ["a"; "b"; "c"] "One" "e1"
                    "article.html?id=1" None None)) (tagSpan "c") = true.
Proof.
  apply (proj1 (proj2 (proj2 cards_list_every_item))).
  simpl. set_solver.
Defined.
